(** * PMOD_COLOR: colour classifier and pattern matcher of main.c

    A shallow embedding of the colour game of
    [ECE528L_PMOD_COLOR/PMOD_COLOR/main.c]: [Detect_Color], [Hold_Color],
    [Generate_Random_Pattern], [Show_Pattern], [CheckPattern] and the body
    of the [while(1)] loop of [main].

    The C functions read and write three objects with static storage (the
    array [pattern] and the two [static int] locals of [CheckPattern]), call
    [rand()] and drive LEDs, motors, delays and [printf].  They are written
    here in a state-and-error monad over a record [world] that holds these
    objects, the number of [rand()] calls made so far and the list of
    calls made to the drivers. *)

From Stdlib Require Import ZArith Lia String.
From stdpp Require Import base option list.

Local Open Scope Z_scope.

(** ** Data *)

(** [typedef enum { COLOR_GREEN = 0, COLOR_RED = 1, COLOR_YELLOW = 2,
    COLOR_UNKNOWN = 3 } Color_t;] *)
Inductive Color_t : Set :=
| COLOR_GREEN
| COLOR_RED
| COLOR_YELLOW
| COLOR_UNKNOWN.

#[global] Instance Color_t_eq_dec : EqDecision Color_t.
Proof. solve_decision. Defined.

(** The enumeration constant of each enumerator. *)
Definition Color_to_Z (c : Color_t) : Z :=
  match c with
  | COLOR_GREEN => 0
  | COLOR_RED => 1
  | COLOR_YELLOW => 2
  | COLOR_UNKNOWN => 3
  end.

(** Conversion of an [int] to [Color_t], as in [pattern[i] = rand() % 3].
    An [int] that is the value of no enumerator has no counterpart in
    [Color_t]; the conversion is partial there. *)
Definition Color_of_Z (z : Z) : option Color_t :=
  match z with
  | 0 => Some COLOR_GREEN
  | 1 => Some COLOR_RED
  | 2 => Some COLOR_YELLOW
  | 3 => Some COLOR_UNKNOWN
  | _ => None
  end.

(** [#define PATTERN_LENGTH 4] *)
Definition PATTERN_LENGTH : Z := 4.

(** The colours accepted by [LED2_Output] (inc/GPIO.h).  Only the names
    used in main.c are listed. *)
Inductive RGB_LED : Set :=
| RGB_LED_OFF
| RGB_LED_RED
| RGB_LED_GREEN
| RGB_LED_YELLOW
| RGB_LED_WHITE
| RGB_LED_SKY_BLUE
| RGB_LED_PINK.

(** One call to a driver or to [printf], with its arguments. *)
Inductive event : Set :=
| LED2_Output (c : RGB_LED)
| Clock_Delay1ms (ms : Z)
| Motor_Forward (l r : Z)
| Motor_Backward (l r : Z)
| Motor_Left (l r : Z)
| Motor_Right (l r : Z)
| Motor_Stop
| PMOD_Color_LED_Control (enable : bool)
| printf (fmt : string) (args : list Z).

(** The objects the modelled functions share. *)
Record world : Type := mkWorld {
  pattern : list Color_t;   (* Color_t pattern[PATTERN_LENGTH]; *)
  index : Z;                (* static int index of CheckPattern *)
  failCount : Z;            (* static int failCount of CheckPattern *)
  rand_calls : nat;         (* how many times rand() has been called *)
  trace : list event        (* driver calls so far, oldest first *)
}.

Definition set_pattern (p : list Color_t) (w : world) : world :=
  mkWorld p (index w) (failCount w) (rand_calls w) (trace w).
Definition set_index (i : Z) (w : world) : world :=
  mkWorld (pattern w) i (failCount w) (rand_calls w) (trace w).
Definition set_failCount (f : Z) (w : world) : world :=
  mkWorld (pattern w) (index w) f (rand_calls w) (trace w).
Definition set_rand_calls (n : nat) (w : world) : world :=
  mkWorld (pattern w) (index w) (failCount w) n (trace w).
Definition set_trace (t : list event) (w : world) : world :=
  mkWorld (pattern w) (index w) (failCount w) (rand_calls w) t.

(** Objects with static storage start zeroed: [index = 0], [failCount = 0]
    and every cell of [pattern] is the enumerator of value 0. *)
Definition initial_world : world :=
  mkWorld [COLOR_GREEN; COLOR_GREEN; COLOR_GREEN; COLOR_GREEN] 0 0 0%nat [].

(** The array [pattern] has [PATTERN_LENGTH] cells. *)
Definition wf_world (w : world) : Prop :=
  Z.of_nat (length (pattern w)) = PATTERN_LENGTH.

(** ** Integer arithmetic *)

(** On the MSP432 (Cortex-M4) [int] is 32 bits wide, so the [uint16_t]
    operands of [+] and [>] are promoted to [int].  Signed overflow is
    undefined in C; [wrap_int] follows the two's complement result of the
    machine.  [uint16_t] arithmetic would instead reduce modulo 2^16
    ([wrap_u16]). *)
Definition INT_MIN : Z := - 2 ^ 31.
Definition INT_MAX : Z := 2 ^ 31 - 1.
Definition UINT16_MAX : Z := 65535.

Definition wrap_int (z : Z) : Z := (z - INT_MIN) mod 2 ^ 32 + INT_MIN.
Definition wrap_u16 (z : Z) : Z := z mod 2 ^ 16.

Definition add_int (a b : Z) : Z := wrap_int (a + b).

Definition is_uint16 (z : Z) : Prop := 0 <= z <= UINT16_MAX.
Definition is_int (z : Z) : Prop := INT_MIN <= z <= INT_MAX.

(** ** The monad *)

(** A computation reads and updates the [world] and either returns a value
    or stops with [None]: an access to [pattern] outside its bounds, which
    has no defined behaviour, or the conversion to [Color_t] of an [int]
    that no enumerator has. *)
Definition M (A : Type) : Type := world -> option (A * world).

#[global] Instance M_ret : MRet M := fun A a w => Some (a, w).
#[global] Instance M_bind : MBind M := fun A B f m w =>
  match m w with
  | Some (a, w') => f a w'
  | None => None
  end.

Definition undefined {A : Type} : M A := fun _ => None.
Definition gets {A : Type} (f : world -> A) : M A := fun w => Some (f w, w).
Definition modify (f : world -> world) : M unit := fun w => Some (tt, f w).

(** A driver call appends itself to the trace. *)
Definition call (e : event) : M unit :=
  modify (fun w => set_trace (trace w ++ [e]) w).

(** [pattern[i]] as an rvalue. *)
Definition read_pattern (i : Z) : M Color_t := fun w =>
  if bool_decide (0 <= i < PATTERN_LENGTH) then
    match pattern w !! Z.to_nat i with
    | Some c => Some (c, w)
    | None => None
    end
  else None.

(** [pattern[i] = c]. *)
Definition write_pattern (i : Z) (c : Color_t) : M unit := fun w =>
  if bool_decide (0 <= i < PATTERN_LENGTH) then
    if bool_decide (Z.to_nat i < length (pattern w))%nat then
      Some (tt, set_pattern (<[Z.to_nat i := c]> (pattern w)) w)
    else None
  else None.

(** [for (int i = lo; i < lo + n; i++) body(i);] for a constant trip
    count [n]. *)
Fixpoint for_loop (n : nat) (i : Z) (body : Z -> M unit) : M unit :=
  match n with
  | O => mret tt
  | S n' => body i ≫= fun _ => for_loop n' (add_int i 1) body
  end.

(** ** The functions of main.c *)

Section Program.

(** [rand_values k] is what the call number [k] of [rand()] returns. *)
Variable rand_values : nat -> Z.

Definition rand : M Z := fun w =>
  Some (rand_values (rand_calls w), set_rand_calls (S (rand_calls w)) w).

(** The conversion of an [int] expression assigned to a [Color_t]. *)
Definition to_Color_t (z : Z) : M Color_t :=
  match Color_of_Z z with
  | Some c => mret c
  | None => undefined
  end.

Definition Detect_Color (R G B : Z) : M Color_t :=
  (* ---- GREEN ---- *)
  if bool_decide (G > add_int R 3000) && bool_decide (G > add_int B 3000) then
    call (printf "GREEN\n" []);;
    call (LED2_Output RGB_LED_GREEN);;
    mret COLOR_GREEN
  (* ---- YELLOW ---- *)
  else if bool_decide (R > 0x2000) && bool_decide (G > 0x2000)
          && bool_decide (B < 0x3000) then
    call (printf "YELLOW\n" []);;
    call (LED2_Output RGB_LED_YELLOW);;
    mret COLOR_YELLOW
  (* ---- RED ---- *)
  else if bool_decide (R > add_int G 6000) && bool_decide (R > add_int B 6000) then
    call (printf "RED\n" []);;
    call (LED2_Output RGB_LED_RED);;
    mret COLOR_RED
  else
    call (LED2_Output RGB_LED_OFF);;
    mret COLOR_UNKNOWN.

Definition Hold_Color (R G B : Z) : M Color_t :=
  color ← Detect_Color R G B;
  if bool_decide (color ≠ COLOR_UNKNOWN) then
    (* Hold the detected color for 1 second *)
    call (Clock_Delay1ms 1000);;
    mret color
  else
    mret COLOR_UNKNOWN.

Definition Generate_Random_Pattern : M unit :=
  for_loop (Z.to_nat PATTERN_LENGTH) 0 (fun i =>
    r ← rand;
    c ← to_Color_t (Z.rem r 3);   (* 0 = green, 1 = red, 2 = yellow *)
    write_pattern i c).

Definition Show_Pattern : M unit :=
  for_loop (Z.to_nat PATTERN_LENGTH) 0 (fun i =>
    c ← read_pattern i;
    match c with
    | COLOR_GREEN => call (LED2_Output RGB_LED_GREEN)
    | COLOR_RED => call (LED2_Output RGB_LED_RED)
    | COLOR_YELLOW => call (LED2_Output RGB_LED_YELLOW)
    | COLOR_UNKNOWN => mret tt
    end;;
    call (Clock_Delay1ms 700);;    (* hold the color *)
    call (LED2_Output RGB_LED_OFF);;
    call (Clock_Delay1ms 300)).    (* gap between colors *)

Definition CheckPattern (detected : Color_t) : M Z :=
  if bool_decide (detected = COLOR_UNKNOWN) then
    mret (-1)   (* ignore noise completely *)
  else
    i ← gets index;
    p ← read_pattern i;
    (* ---------- CORRECT COLOR ---------- *)
    if bool_decide (detected = p) then
      modify (set_failCount 0);;   (* reset failure counter *)
      i ← gets index;
      modify (set_index (add_int i 1));;
      i ← gets index;
      if bool_decide (i = PATTERN_LENGTH) then
        modify (set_index 0);;
        mret 2   (* full pattern matched *)
      else
        mret 1   (* correct so far *)
    (* ---------- WRONG COLOR ---------- *)
    else
      f ← gets failCount;
      modify (set_failCount (add_int f 1));;
      f ← gets failCount;
      if bool_decide (f >= 2) then   (* only fail after 2 bad reads in a row *)
        modify (set_index 0);;
        modify (set_failCount 0);;
        mret 0   (* full failure: restart needed *)
      else
        mret (-1).   (* mild failure: IGNORE (do not restart) *)

(** One pass through the body of [while(1)] in [main], for the normalised
    sample [(R, G, B)] the sensor driver delivers in this pass.  The value
    returned is the local [result]. *)
Definition loop_iteration (R G B : Z) : M Z :=
  call (PMOD_Color_LED_Control true);;
  call (printf "r=%04x g=%04x b=%04x\r\n" [R; G; B]);;
  call (Clock_Delay1ms 50);;
  detect ← Hold_Color R G B;
  result ← CheckPattern detect;
  (if bool_decide (result = 1) then
     call (printf "Correct step!\n" []);;
     call (LED2_Output RGB_LED_WHITE);;
     call (Clock_Delay1ms 500);;
     call (LED2_Output RGB_LED_OFF)
   else if bool_decide (result = 2) then
     call (printf "ACCESS GRANTED!\n" []);;
     call (LED2_Output RGB_LED_SKY_BLUE);;
     call (Clock_Delay1ms 3000);;
     call (LED2_Output RGB_LED_OFF);;
     call (Motor_Forward 3000 3000);;
     call (Clock_Delay1ms 2000);;
     call (Motor_Backward 3000 3000);;
     call (Clock_Delay1ms 2000);;
     call Motor_Stop;;
     Generate_Random_Pattern;;
     Show_Pattern
   else if bool_decide (result = 0) then
     call (printf "Wrong! Restarting...\n" []);;
     call (LED2_Output RGB_LED_PINK);;
     call (Clock_Delay1ms 2500);;
     call (LED2_Output RGB_LED_OFF);;
     call (Clock_Delay1ms 500);;
     call (Motor_Left 4500 4500);;
     call (Clock_Delay1ms 2000);;
     call (Motor_Right 4500 4500);;
     call (Clock_Delay1ms 2000);;
     call Motor_Stop;;
     Show_Pattern
   else mret tt);;
  mret result.

(** The first passes of the loop, one per sample; the results in order. *)
Fixpoint loop (samples : list (Z * Z * Z)) : M (list Z) :=
  match samples with
  | [] => mret []
  | (R, G, B) :: rest =>
      result ← loop_iteration R G B;
      results ← loop rest;
      mret (result :: results)
  end.

(** [main] from [Generate_Random_Pattern()] on, cut after as many passes
    of the loop as there are samples.  The statements before it set up
    clocks, ports and the sensor and touch none of the objects of [world]. *)
Definition main (samples : list (Z * Z * Z)) : M (list Z) :=
  Generate_Random_Pattern;;
  Show_Pattern;;
  loop samples.

(** [CheckPattern] called on each observation in turn; the values
    returned, in order. *)
Fixpoint feed (observed : list Color_t) : M (list Z) :=
  match observed with
  | [] => mret []
  | detected :: rest =>
      r ← CheckPattern detected;
      rs ← feed rest;
      mret (r :: rs)
  end.

End Program.

(** ** Reading the results *)

(** The names the specification gives to the values [CheckPattern]
    returns. *)
Definition Ignore : Z := -1.
Definition HardFail : Z := 0.
Definition StepCorrect : Z := 1.
Definition SequenceComplete : Z := 2.

(** The three rules of the classifier as the specification words them,
    over the mathematical integers, and the classification by first
    match. *)
Definition Green_rule (R G B : Z) : Prop := G > R + 3000 /\ G > B + 3000.
Definition Yellow_rule (R G B : Z) : Prop := R > 8192 /\ G > 8192 /\ B < 12288.
Definition Red_rule (R G B : Z) : Prop := R > G + 6000 /\ R > B + 6000.

Definition classify (R G B : Z) : Color_t :=
  if decide (Green_rule R G B) then COLOR_GREEN
  else if decide (Yellow_rule R G B) then COLOR_YELLOW
  else if decide (Red_rule R G B) then COLOR_RED
  else COLOR_UNKNOWN.

(** Two worlds that differ at most in their trace. *)
Definition same_objects (w w' : world) : Prop :=
  pattern w' = pattern w /\ index w' = index w /\
  failCount w' = failCount w /\ rand_calls w' = rand_calls w.

(** The colours a target sequence is made of. *)
Definition target_color (c : Color_t) : Prop :=
  c = COLOR_GREEN \/ c = COLOR_RED \/ c = COLOR_YELLOW.

(** The invariant of the matcher. *)
Definition matcher_inv (w : world) : Prop :=
  0 <= index w < PATTERN_LENGTH /\ 0 <= failCount w < 2.

(** What [Show_Pattern] sends to the drivers for one colour and for a
    whole sequence. *)
Definition presentation_of (c : Color_t) : list event :=
  match c with
  | COLOR_GREEN => [LED2_Output RGB_LED_GREEN]
  | COLOR_RED => [LED2_Output RGB_LED_RED]
  | COLOR_YELLOW => [LED2_Output RGB_LED_YELLOW]
  | COLOR_UNKNOWN => []
  end ++ [Clock_Delay1ms 700; LED2_Output RGB_LED_OFF; Clock_Delay1ms 300].

Definition presentation (p : list Color_t) : list event :=
  concat (map presentation_of p).

(** How often [SequenceComplete] occurs among the results. *)
Definition completions (results : list Z) : nat :=
  length (filter (fun r => r = SequenceComplete) results).

(** ** The SysTick interrupt *)

(** The objects [SysTick_Handler] reads and writes: the two globals
    [uint32_t SysTick_ms_elapsed] and [uint8_t collision_detected], and the
    output register [P8->OUT] of port 8, which msp.h declares 8 bits
    wide. *)
Record tick_state : Type := mkTick {
  SysTick_ms_elapsed : Z;
  collision_detected : Z;
  P8_OUT : Z
}.

Definition wrap_u32 (z : Z) : Z := z mod 2 ^ 32.
Definition wrap_u8 (z : Z) : Z := z mod 2 ^ 8.

Definition is_uint8 (z : Z) : Prop := 0 <= z < 2 ^ 8.
Definition is_uint32 (z : Z) : Prop := 0 <= z < 2 ^ 32.

Definition wf_tick (s : tick_state) : Prop :=
  is_uint32 (SysTick_ms_elapsed s) /\ is_uint8 (collision_detected s) /\
  is_uint8 (P8_OUT s).

(** [void SysTick_Handler(void)].  The operands of [&], [^] and [|] are
    promoted to [int], so [~0xC0] and [~0x21] are negative; the result is
    converted back to the 8 bits of the register. *)
Definition SysTick_Handler (s : tick_state) : tick_state :=
  (* SysTick_ms_elapsed++; *)
  let elapsed := wrap_u32 (SysTick_ms_elapsed s + 1) in
  if bool_decide (collision_detected s = 0) then
    if bool_decide (elapsed >= 500) then
      (* P8->OUT &= ~0xC0; P8->OUT ^= 0x21; SysTick_ms_elapsed = 0; *)
      let out := wrap_u8 (Z.land (P8_OUT s) (Z.lnot 0xC0)) in
      let out := wrap_u8 (Z.lxor out 0x21) in
      mkTick 0 (collision_detected s) out
    else
      mkTick elapsed (collision_detected s) (P8_OUT s)
  else
    (* P8->OUT |= 0xC0; P8->OUT &= ~0x21; *)
    let out := wrap_u8 (Z.lor (P8_OUT s) 0xC0) in
    let out := wrap_u8 (Z.land out (Z.lnot 0x21)) in
    mkTick elapsed (collision_detected s) out.

(** [n] interrupts in a row, [collision_detected] being left alone in
    between. *)
Fixpoint ticks (n : nat) (s : tick_state) : tick_state :=
  match n with
  | O => s
  | S n' => ticks n' (SysTick_Handler s)
  end.

(** ** Reading a trace *)

(** The milliseconds spent in [Clock_Delay1ms] along a trace. *)
Definition delay_of (e : event) : Z :=
  match e with
  | Clock_Delay1ms ms => ms
  | _ => 0
  end.

Definition total_delay (t : list event) : Z :=
  foldr (fun e acc => delay_of e + acc) 0 t.

(** The calls to the motor driver along a trace. *)
Definition is_motor_call (e : event) : bool :=
  match e with
  | Motor_Forward _ _ | Motor_Backward _ _ | Motor_Left _ _
  | Motor_Right _ _ | Motor_Stop => true
  | _ => false
  end.

Definition motor_calls (t : list event) : list event :=
  List.filter is_motor_call t.

(** What LED2 shows after a trace, [before] being what it showed at its
    start: the argument of the last [LED2_Output]. *)
Definition LED2_after (before : RGB_LED) (t : list event) : RGB_LED :=
  foldl (fun led e => match e with
                      | LED2_Output c => c
                      | _ => led
                      end) before t.

(** The colours LED2 is switched to along a trace, in order, the
    switching off left out. *)
Definition lit (t : list event) : list RGB_LED :=
  omap (fun e => match e with
                 | LED2_Output RGB_LED_OFF => None
                 | LED2_Output c => Some c
                 | _ => None
                 end) t.

(** The LED colour [Detect_Color] and [Show_Pattern] use for a colour. *)
Definition LED_of (c : Color_t) : RGB_LED :=
  match c with
  | COLOR_GREEN => RGB_LED_GREEN
  | COLOR_RED => RGB_LED_RED
  | COLOR_YELLOW => RGB_LED_YELLOW
  | COLOR_UNKNOWN => RGB_LED_OFF
  end.

(** The driver calls of [Detect_Color] and [Hold_Color] when the colour
    found is [c], and those of the three branches on [result] in the loop
    of [main], before [Generate_Random_Pattern] and [Show_Pattern]. *)
Definition detect_events (c : Color_t) : list event :=
  match c with
  | COLOR_GREEN => [printf "GREEN\n" []; LED2_Output RGB_LED_GREEN]
  | COLOR_YELLOW => [printf "YELLOW\n" []; LED2_Output RGB_LED_YELLOW]
  | COLOR_RED => [printf "RED\n" []; LED2_Output RGB_LED_RED]
  | COLOR_UNKNOWN => [LED2_Output RGB_LED_OFF]
  end.

Definition hold_events (c : Color_t) : list event :=
  detect_events c ++
  (if decide (c = COLOR_UNKNOWN) then [] else [Clock_Delay1ms 1000]).

Definition result_events (result : Z) : list event :=
  if decide (result = 1) then
    [printf "Correct step!\n" []; LED2_Output RGB_LED_WHITE;
     Clock_Delay1ms 500; LED2_Output RGB_LED_OFF]
  else if decide (result = 2) then
    [printf "ACCESS GRANTED!\n" []; LED2_Output RGB_LED_SKY_BLUE;
     Clock_Delay1ms 3000; LED2_Output RGB_LED_OFF;
     Motor_Forward 3000 3000; Clock_Delay1ms 2000;
     Motor_Backward 3000 3000; Clock_Delay1ms 2000; Motor_Stop]
  else if decide (result = 0) then
    [printf "Wrong! Restarting...\n" []; LED2_Output RGB_LED_PINK;
     Clock_Delay1ms 2500; LED2_Output RGB_LED_OFF; Clock_Delay1ms 500;
     Motor_Left 4500 4500; Clock_Delay1ms 2000;
     Motor_Right 4500 4500; Clock_Delay1ms 2000; Motor_Stop]
  else [].

Definition sample_events (R G B : Z) : list event :=
  [PMOD_Color_LED_Control true;
   printf "r=%04x g=%04x b=%04x\r\n" [R; G; B];
   Clock_Delay1ms 50].

(** A sample as [main] reads it: three [uint16_t]. *)
Definition is_sample (s : Z * Z * Z) : Prop :=
  is_uint16 (fst (fst s)) /\ is_uint16 (snd (fst s)) /\ is_uint16 (snd s).

(** * Properties *)

(** ** Arithmetic *)

Lemma Color_of_to_Z (c : Color_t) : Color_of_Z (Color_to_Z c) = Some c.
Proof. destruct c; reflexivity. Qed.

Lemma wrap_int_exact (z : Z) : is_int z -> wrap_int z = z.
Proof.
  unfold is_int, wrap_int, INT_MIN, INT_MAX. intros Hz.
  rewrite Z.mod_small; lia.
Qed.

Lemma add_int_exact (a b : Z) : is_int (a + b) -> add_int a b = a + b.
Proof. apply wrap_int_exact. Qed.

Lemma add_int_uint16 (a k : Z) :
  is_uint16 a -> 0 <= k <= 6000 -> add_int a k = a + k.
Proof.
  unfold is_uint16, UINT16_MAX. intros Ha Hk.
  apply add_int_exact. unfold is_int, INT_MIN, INT_MAX. lia.
Qed.

(** ** The monad *)

Lemma bind_Some {A B : Type} (m : M A) (f : A -> M B) (w w' : world) (a : A) :
  m w = Some (a, w') -> (m ≫= f) w = f a w'.
Proof. unfold mbind, M_bind. intros ->. reflexivity. Qed.

Lemma bind_ret {A B : Type} (a : A) (f : A -> M B) (w : world) :
  (mret a ≫= f) w = f a w.
Proof. reflexivity. Qed.

Lemma bind_assoc {A B C : Type} (m : M A) (f : A -> M B) (g : B -> M C)
  (w : world) :
  ((m ≫= f) ≫= g) w = (m ≫= fun a => f a ≫= g) w.
Proof.
  unfold mbind, M_bind. destruct (m w) as [[a w'] | ]; reflexivity.
Qed.

Lemma bind_gets {A B : Type} (g : world -> A) (f : A -> M B) (w : world) :
  (gets g ≫= f) w = f (g w) w.
Proof. reflexivity. Qed.

Lemma bind_modify {B : Type} (g : world -> world) (f : unit -> M B)
  (w : world) :
  (modify g ≫= f) w = f tt (g w).
Proof. reflexivity. Qed.

Lemma bind_call {B : Type} (e : event) (f : unit -> M B) (w : world) :
  (call e ≫= f) w = f tt (set_trace (trace w ++ [e]) w).
Proof. reflexivity. Qed.

Lemma same_objects_refl (w : world) : same_objects w w.
Proof. repeat split. Qed.

Lemma same_objects_trans (w1 w2 w3 : world) :
  same_objects w1 w2 -> same_objects w2 w3 -> same_objects w1 w3.
Proof. unfold same_objects. intuition congruence. Qed.

Lemma same_objects_set_trace (t : list event) (w : world) :
  same_objects w (set_trace t w).
Proof. repeat split. Qed.

#[local] Hint Resolve same_objects_refl same_objects_set_trace : core.

(** ** Detect_Color *)

(** [Detect_Color] on exact sums: the source's conditions with [add_int]
    replaced by [+]. *)
Lemma Detect_Color_classify (R G B : Z) (w : world) :
  is_uint16 R -> is_uint16 G -> is_uint16 B ->
  exists w', Detect_Color R G B w = Some (classify R G B, w') /\
             same_objects w w'.
Proof.
  intros HR HG HB. unfold Detect_Color, classify.
  rewrite !add_int_uint16 by (assumption || lia).
  rewrite <- !bool_decide_and.
  unfold Green_rule, Yellow_rule, Red_rule.
  destruct (decide (G > R + 3000 /\ G > B + 3000)) as [Hg | Hg].
  { rewrite bool_decide_eq_true_2 by assumption.
    rewrite !bind_call. eexists. split; [reflexivity | repeat split]. }
  rewrite bool_decide_eq_false_2 by assumption.
  destruct (decide (R > 8192 /\ G > 8192 /\ B < 12288)) as [Hy | Hy].
  { rewrite bool_decide_eq_true_2 by lia.
    rewrite !bind_call. eexists. split; [reflexivity | repeat split]. }
  rewrite bool_decide_eq_false_2 by lia.
  destruct (decide (R > G + 6000 /\ R > B + 6000)) as [Hr | Hr].
  { rewrite bool_decide_eq_true_2 by assumption.
    rewrite !bind_call. eexists. split; [reflexivity | repeat split]. }
  rewrite bool_decide_eq_false_2 by assumption.
  rewrite !bind_call. eexists. split; [reflexivity | repeat split].
Qed.

(** The readings the specification lists as tests. *)
Example Detect_Color_dark (w : world) :
  fst <$> Detect_Color 0 0 0 w = Some COLOR_UNKNOWN.
Proof. reflexivity. Qed.

Example Detect_Color_yellow_bound (w : world) :
  fst <$> Detect_Color 8192 8192 12287 w = Some COLOR_UNKNOWN /\
  fst <$> Detect_Color 8193 8193 12287 w = Some COLOR_YELLOW.
Proof. split; reflexivity. Qed.

(** C1.  For unsigned 16-bit R, G and B, [Detect_Color] returns, and what
    it returns is the first rule that matches in the order Green, Yellow,
    Red, Unknown when none does: Green whenever [G > R + 3000] and
    [G > B + 3000], whatever the Yellow and Red rules say; Yellow when the
    Green rule fails and [R > 8192], [G > 8192], [B < 12288]; Red when both
    fail and [R > G + 6000], [R > B + 6000]; Unknown otherwise. *)
Theorem Detect_Color_first_match (R G B : Z) (w : world) :
  is_uint16 R -> is_uint16 G -> is_uint16 B ->
  exists c w',
    Detect_Color R G B w = Some (c, w') /\
    (Green_rule R G B -> c = COLOR_GREEN) /\
    (~ Green_rule R G B -> Yellow_rule R G B -> c = COLOR_YELLOW) /\
    (~ Green_rule R G B -> ~ Yellow_rule R G B -> Red_rule R G B ->
     c = COLOR_RED) /\
    (~ Green_rule R G B -> ~ Yellow_rule R G B -> ~ Red_rule R G B ->
     c = COLOR_UNKNOWN).
Proof.
  intros HR HG HB.
  destruct (Detect_Color_classify R G B w HR HG HB) as (w' & Hrun & _).
  exists (classify R G B), w'. split; [exact Hrun | ].
  unfold classify. repeat case_decide; repeat split; intros; tauto.
Qed.

(** A reading on which the Green and the Yellow rule both hold. *)
Lemma Detect_Color_first_match_witness :
  exists c w',
    Detect_Color 9000 13000 9000 initial_world = Some (c, w') /\
    (Green_rule 9000 13000 9000 -> c = COLOR_GREEN) /\
    (~ Green_rule 9000 13000 9000 -> Yellow_rule 9000 13000 9000 ->
     c = COLOR_YELLOW) /\
    (~ Green_rule 9000 13000 9000 -> ~ Yellow_rule 9000 13000 9000 ->
     Red_rule 9000 13000 9000 -> c = COLOR_RED) /\
    (~ Green_rule 9000 13000 9000 -> ~ Yellow_rule 9000 13000 9000 ->
     ~ Red_rule 9000 13000 9000 -> c = COLOR_UNKNOWN).
Proof.
  apply (Detect_Color_first_match 9000 13000 9000 initial_world);
    unfold is_uint16, UINT16_MAX; lia.
Defined.

(** C10.  The sums of the classifier are formed in [int] after promotion
    of the [uint16_t] operands and never wrap: each equals the mathematical
    sum, so [Detect_Color] agrees with the classification over the
    integers.  At (65535, 65535, 0) the result is Yellow, although the
    Green test would succeed on sums reduced modulo 2^16. *)
Theorem Detect_Color_exact_sums (R G B : Z) (w : world) :
  is_uint16 R -> is_uint16 G -> is_uint16 B ->
  (add_int R 3000 = R + 3000 /\ add_int B 3000 = B + 3000 /\
   add_int G 6000 = G + 6000 /\ add_int B 6000 = B + 6000) /\
  fst <$> Detect_Color R G B w = Some (classify R G B) /\
  fst <$> Detect_Color 65535 65535 0 w = Some COLOR_YELLOW /\
  (65535 > wrap_u16 (65535 + 3000) /\ 65535 > wrap_u16 (0 + 3000)).
Proof.
  intros HR HG HB. split; [ | split; [ | split]].
  - rewrite !add_int_uint16 by (assumption || lia). repeat split.
  - destruct (Detect_Color_classify R G B w HR HG HB) as (w' & -> & _).
    reflexivity.
  - destruct (Detect_Color_classify 65535 65535 0 w) as (w' & -> & _);
      try (unfold is_uint16, UINT16_MAX; lia).
    reflexivity.
  - unfold wrap_u16. split; reflexivity.
Qed.

Lemma Detect_Color_exact_sums_witness :
  (add_int 65535 3000 = 65535 + 3000 /\ add_int 0 3000 = 0 + 3000 /\
   add_int 65535 6000 = 65535 + 6000 /\ add_int 0 6000 = 0 + 6000) /\
  fst <$> Detect_Color 65535 65535 0 initial_world
    = Some (classify 65535 65535 0) /\
  fst <$> Detect_Color 65535 65535 0 initial_world = Some COLOR_YELLOW /\
  (65535 > wrap_u16 (65535 + 3000) /\ 65535 > wrap_u16 (0 + 3000)).
Proof.
  apply (Detect_Color_exact_sums 65535 65535 0 initial_world);
    unfold is_uint16, UINT16_MAX; lia.
Defined.

(** ** CheckPattern, one call *)

Lemma read_pattern_Some (i : Z) (c : Color_t) (w : world) :
  0 <= i < PATTERN_LENGTH -> pattern w !! Z.to_nat i = Some c ->
  read_pattern i w = Some (c, w).
Proof.
  intros Hi Hc. unfold read_pattern.
  rewrite bool_decide_eq_true_2 by assumption. rewrite Hc. reflexivity.
Qed.

Lemma wf_world_lookup (w : world) (i : Z) :
  wf_world w -> 0 <= i < PATTERN_LENGTH ->
  exists c, pattern w !! Z.to_nat i = Some c.
Proof.
  unfold wf_world. intros Hwf Hi.
  apply lookup_lt_is_Some_2. lia.
Qed.

(** Noise is dropped before [pattern] or the counters are looked at. *)
Lemma CheckPattern_unknown (w : world) :
  CheckPattern COLOR_UNKNOWN w = Some (Ignore, w).
Proof. reflexivity. Qed.

(** The branch "CORRECT COLOR". *)
Lemma CheckPattern_correct (detected : Color_t) (w : world) :
  detected <> COLOR_UNKNOWN ->
  0 <= index w < PATTERN_LENGTH ->
  pattern w !! Z.to_nat (index w) = Some detected ->
  CheckPattern detected w =
    Some (if decide (index w + 1 = PATTERN_LENGTH)
          then (SequenceComplete, set_index 0 (set_failCount 0 w))
          else (StepCorrect, set_index (index w + 1) (set_failCount 0 w))).
Proof.
  intros Hu Hi Hp. unfold CheckPattern.
  rewrite bool_decide_eq_false_2 by assumption.
  rewrite bind_gets, (bind_Some _ _ _ _ _ (read_pattern_Some _ _ _ Hi Hp)).
  rewrite bool_decide_eq_true_2 by reflexivity.
  rewrite bind_modify, bind_gets, bind_modify, bind_gets.
  change (index (set_failCount 0 w)) with (index w). cbn [index set_index].
  rewrite add_int_exact
    by (unfold is_int, INT_MIN, INT_MAX, PATTERN_LENGTH in *; lia).
  case_decide; [rewrite bool_decide_eq_true_2 by assumption
               | rewrite bool_decide_eq_false_2 by assumption]; reflexivity.
Qed.

(** The branch "WRONG COLOR". *)
Lemma CheckPattern_wrong (detected target : Color_t) (w : world) :
  detected <> COLOR_UNKNOWN ->
  0 <= index w < PATTERN_LENGTH ->
  pattern w !! Z.to_nat (index w) = Some target ->
  detected <> target ->
  is_int (failCount w + 1) ->
  CheckPattern detected w =
    Some (if decide (failCount w + 1 >= 2)
          then (HardFail, set_failCount 0 (set_index 0 w))
          else (Ignore, set_failCount (failCount w + 1) w)).
Proof.
  intros Hu Hi Hp Hne Hf. unfold CheckPattern.
  rewrite bool_decide_eq_false_2 by assumption.
  rewrite bind_gets, (bind_Some _ _ _ _ _ (read_pattern_Some _ _ _ Hi Hp)).
  rewrite bool_decide_eq_false_2 by assumption.
  rewrite bind_gets, bind_modify, bind_gets. cbn [failCount set_failCount].
  rewrite add_int_exact by assumption.
  case_decide; [rewrite bool_decide_eq_true_2 by assumption
               | rewrite bool_decide_eq_false_2 by assumption]; reflexivity.
Qed.

(** C2.  From a state with a valid cursor and fewer than two failures
    [CheckPattern] follows the transition table.  Unknown: [Ignore], state
    unchanged.  The symbol at the cursor: the failure counter is cleared
    and the cursor advances, with [SequenceComplete] and the cursor back
    at 0 when it reaches [PATTERN_LENGTH], [StepCorrect] otherwise.  Any
    other symbol: the failure counter grows by one, with [HardFail] and
    both cursor and counter back at 0 when it reaches 2, [Ignore] and the
    cursor untouched otherwise. *)
Theorem CheckPattern_transition_table (detected target : Color_t) (w : world) :
  0 <= index w < PATTERN_LENGTH ->
  0 <= failCount w < 2 ->
  pattern w !! Z.to_nat (index w) = Some target ->
  (detected = COLOR_UNKNOWN ->
     CheckPattern detected w = Some (Ignore, w)) /\
  (detected <> COLOR_UNKNOWN -> detected = target ->
     (index w + 1 = PATTERN_LENGTH ->
        CheckPattern detected w =
          Some (SequenceComplete, set_index 0 (set_failCount 0 w))) /\
     (index w + 1 <> PATTERN_LENGTH ->
        CheckPattern detected w =
          Some (StepCorrect, set_index (index w + 1) (set_failCount 0 w)))) /\
  (detected <> COLOR_UNKNOWN -> detected <> target ->
     (failCount w + 1 = 2 ->
        CheckPattern detected w =
          Some (HardFail, set_failCount 0 (set_index 0 w))) /\
     (failCount w + 1 < 2 ->
        CheckPattern detected w =
          Some (Ignore, set_failCount (failCount w + 1) w))).
Proof.
  intros Hi Hf Hp. split; [ | split].
  - intros ->. apply CheckPattern_unknown.
  - intros Hu ->. rewrite (CheckPattern_correct target w Hu Hi Hp).
    split; intros Hc; case_decide; (reflexivity || contradiction).
  - intros Hu Hne.
    rewrite (CheckPattern_wrong detected target w Hu Hi Hp Hne)
      by (unfold is_int, INT_MIN, INT_MAX; lia).
    split; intros Hc; case_decide; (reflexivity || lia).
Qed.

Lemma CheckPattern_transition_table_witness :
  let w := set_failCount 1 (set_index 3 initial_world) in
  (COLOR_RED = COLOR_UNKNOWN -> CheckPattern COLOR_RED w = Some (Ignore, w)) /\
  (COLOR_RED <> COLOR_UNKNOWN -> COLOR_RED = COLOR_GREEN ->
     (index w + 1 = PATTERN_LENGTH ->
        CheckPattern COLOR_RED w =
          Some (SequenceComplete, set_index 0 (set_failCount 0 w))) /\
     (index w + 1 <> PATTERN_LENGTH ->
        CheckPattern COLOR_RED w =
          Some (StepCorrect, set_index (index w + 1) (set_failCount 0 w)))) /\
  (COLOR_RED <> COLOR_UNKNOWN -> COLOR_RED <> COLOR_GREEN ->
     (failCount w + 1 = 2 ->
        CheckPattern COLOR_RED w =
          Some (HardFail, set_failCount 0 (set_index 0 w))) /\
     (failCount w + 1 < 2 ->
        CheckPattern COLOR_RED w =
          Some (Ignore, set_failCount (failCount w + 1) w))).
Proof.
  apply (CheckPattern_transition_table COLOR_RED COLOR_GREEN
           (set_failCount 1 (set_index 3 initial_world)));
    [cbn; unfold PATTERN_LENGTH; lia | cbn; lia | reflexivity].
Defined.

(** ** CheckPattern, several calls *)

Lemma feed_cons (detected : Color_t) (rest : list Color_t) (r : Z)
  (w w' : world) :
  CheckPattern detected w = Some (r, w') ->
  feed (detected :: rest) w =
    match feed rest w' with
    | Some (rs, w'') => Some (r :: rs, w'')
    | None => None
    end.
Proof.
  intros H. cbn [feed]. rewrite (bind_Some _ _ _ _ _ H). reflexivity.
Qed.

Lemma feed_nil (w : world) : feed [] w = Some ([], w).
Proof. reflexivity. Qed.

Lemma target_color_cases (c : Color_t) :
  target_color c -> c <> COLOR_UNKNOWN.
Proof. intros [-> | [-> | ->]]; discriminate. Qed.

Lemma wf_world_four (w : world) :
  wf_world w -> exists a b c d, pattern w = [a; b; c; d].
Proof.
  unfold wf_world, PATTERN_LENGTH.
  destruct (pattern w) as [ | a [ | b [ | c [ | d [ | e l]]]]];
    cbn [length]; try lia.
  intros _. exists a, b, c, d. reflexivity.
Qed.

(** C3.  With a target sequence of four symbols among Green, Red and
    Yellow and a fresh matcher (cursor 0, no failure), the four target
    symbols in order are answered StepCorrect, StepCorrect, StepCorrect,
    SequenceComplete, and the cursor is 0 again afterwards: the world is
    the one the run started from. *)
Theorem feed_exact_target (w : world) :
  wf_world w ->
  Forall target_color (pattern w) ->
  index w = 0 -> failCount w = 0 ->
  exists w',
    feed (pattern w) w =
      Some ([StepCorrect; StepCorrect; StepCorrect; SequenceComplete], w') /\
    index w' = 0 /\ w' = w.
Proof.
  intros Hwf Hall Hi Hf. exists w. split; [ | split; [exact Hi | reflexivity]].
  destruct (wf_world_four w Hwf) as (a & b & c & d & Hp).
  destruct w as [p i f n t]. cbn in Hp, Hi, Hf, Hall. subst p i f.
  repeat match goal with
         | H : Forall _ (_ :: _) |- _ =>
             apply Forall_cons in H; destruct H as [[-> | [-> | ->]] H]
         end; reflexivity.
Qed.

Lemma feed_exact_target_witness :
  let w := mkWorld [COLOR_YELLOW; COLOR_GREEN; COLOR_RED; COLOR_YELLOW]
             0 0 4%nat [] in
  exists w',
    feed (pattern w) w =
      Some ([StepCorrect; StepCorrect; StepCorrect; SequenceComplete], w') /\
    index w' = 0 /\ w' = w.
Proof.
  apply (feed_exact_target
           (mkWorld [COLOR_YELLOW; COLOR_GREEN; COLOR_RED; COLOR_YELLOW]
              0 0 4%nat []));
    [reflexivity | | reflexivity | reflexivity].
  cbn [pattern].
  repeat first [apply Forall_nil_2 | apply Forall_cons_2];
    unfold target_color; auto.
Defined.

(** C4.  With no failure recorded and a valid cursor, two symbols in a
    row that are not Unknown and both differ from the symbol at the cursor
    are answered Ignore, then HardFail, and cursor and failure counter are
    both 0 afterwards. *)
Theorem feed_two_wrong (x y target : Color_t) (w : world) :
  0 <= index w < PATTERN_LENGTH ->
  failCount w = 0 ->
  pattern w !! Z.to_nat (index w) = Some target ->
  x <> COLOR_UNKNOWN -> y <> COLOR_UNKNOWN ->
  x <> target -> y <> target ->
  exists w',
    feed [x; y] w = Some ([Ignore; HardFail], w') /\
    index w' = 0 /\ failCount w' = 0 /\ pattern w' = pattern w.
Proof.
  intros Hi Hf Hp Hx Hy Hxt Hyt.
  pose proof (CheckPattern_wrong x target w Hx Hi Hp Hxt) as H1.
  rewrite Hf in H1. cbn in H1.
  specialize (H1 ltac:(unfold is_int, INT_MIN, INT_MAX; lia)).
  rewrite (feed_cons _ _ _ _ _ H1).
  pose proof (CheckPattern_wrong y target (set_failCount 1 w) Hy Hi Hp Hyt)
    as H2.
  cbn in H2. specialize (H2 ltac:(unfold is_int, INT_MIN, INT_MAX; lia)).
  rewrite (feed_cons _ _ _ _ _ H2), feed_nil.
  eexists. split; [reflexivity | repeat split].
Qed.

Lemma feed_two_wrong_witness :
  exists w',
    feed [COLOR_RED; COLOR_YELLOW] (set_index 2 initial_world)
      = Some ([Ignore; HardFail], w') /\
    index w' = 0 /\ failCount w' = 0 /\
    pattern w' = pattern (set_index 2 initial_world).
Proof.
  apply (feed_two_wrong COLOR_RED COLOR_YELLOW COLOR_GREEN
           (set_index 2 initial_world));
    [cbn; unfold PATTERN_LENGTH; lia | reflexivity | reflexivity
    | discriminate | discriminate | discriminate | discriminate].
Defined.

(** C5, as the code has it.  With no failure recorded, a symbol that is
    neither Unknown nor the symbol at the cursor, followed by the symbol at
    the cursor (itself not Unknown), is answered Ignore and then: below the
    last position StepCorrect, with the cursor one further than at the
    start; at the last position SequenceComplete, with the cursor back
    at 0.  The miss leaves no failure behind in either case. *)
Theorem feed_wrong_then_correct (x target : Color_t) (w : world) :
  0 <= index w < PATTERN_LENGTH ->
  failCount w = 0 ->
  pattern w !! Z.to_nat (index w) = Some target ->
  target <> COLOR_UNKNOWN ->
  x <> COLOR_UNKNOWN -> x <> target ->
  (index w + 1 < PATTERN_LENGTH ->
     exists w',
       feed [x; target] w = Some ([Ignore; StepCorrect], w') /\
       index w' = index w + 1 /\ failCount w' = 0 /\
       pattern w' = pattern w) /\
  (index w + 1 = PATTERN_LENGTH ->
     exists w',
       feed [x; target] w = Some ([Ignore; SequenceComplete], w') /\
       index w' = 0 /\ failCount w' = 0 /\ pattern w' = pattern w).
Proof.
  intros Hi Hf Hp Ht Hx Hxt.
  pose proof (CheckPattern_wrong x target w Hx Hi Hp Hxt) as H1.
  rewrite Hf in H1. cbn in H1.
  specialize (H1 ltac:(unfold is_int, INT_MIN, INT_MAX; lia)).
  rewrite (feed_cons _ _ _ _ _ H1).
  pose proof (CheckPattern_correct target (set_failCount 1 w) Ht Hi Hp) as H2.
  change (index (set_failCount 1 w)) with (index w) in H2.
  split; intros Hlast; destruct (decide (index w + 1 = PATTERN_LENGTH));
    try lia;
    rewrite (feed_cons _ _ _ _ _ H2), feed_nil;
    (eexists; split; [reflexivity | repeat split]).
Qed.

Lemma feed_wrong_then_correct_witness :
  let w := set_index 1 initial_world in
  (index w + 1 < PATTERN_LENGTH ->
     exists w',
       feed [COLOR_RED; COLOR_GREEN] w = Some ([Ignore; StepCorrect], w') /\
       index w' = index w + 1 /\ failCount w' = 0 /\
       pattern w' = pattern w) /\
  (index w + 1 = PATTERN_LENGTH ->
     exists w',
       feed [COLOR_RED; COLOR_GREEN] w
         = Some ([Ignore; SequenceComplete], w') /\
       index w' = 0 /\ failCount w' = 0 /\ pattern w' = pattern w).
Proof.
  apply (feed_wrong_then_correct COLOR_RED COLOR_GREEN
           (set_index 1 initial_world));
    [cbn; unfold PATTERN_LENGTH; lia | reflexivity | reflexivity
    | discriminate | discriminate | discriminate].
Defined.

(** C5 for every cursor below 4 fails at the last position: with the
    cursor at 3, a wrong symbol followed by the right one is answered
    Ignore, then SequenceComplete (not StepCorrect), and the cursor is 0
    (not 4). *)
Lemma feed_wrong_then_correct_last_position :
  let w := set_index 3 initial_world in
  (0 <= index w < PATTERN_LENGTH /\ failCount w = 0 /\
   pattern w !! Z.to_nat (index w) = Some COLOR_GREEN /\
   COLOR_RED <> COLOR_UNKNOWN /\ COLOR_RED <> COLOR_GREEN) /\
  feed [COLOR_RED; COLOR_GREEN] w
    = Some ([Ignore; SequenceComplete], initial_world) /\
  ~ (exists w',
       feed [COLOR_RED; COLOR_GREEN] w = Some ([Ignore; StepCorrect], w') /\
       index w' = index w + 1).
Proof.
  cbn zeta. split; [ | split].
  - unfold PATTERN_LENGTH. cbn. repeat split; (lia || discriminate).
  - reflexivity.
  - intros (w' & Hrun & _). vm_compute in Hrun. discriminate Hrun.
Qed.

(** C6.  Any number of Unknown observations in a row, from any state
    whatever, are each answered Ignore and leave the world, cursor and
    failure counter included, as it was. *)
Theorem feed_unknown (n : nat) (w : world) :
  feed (replicate n COLOR_UNKNOWN) w = Some (replicate n Ignore, w).
Proof.
  induction n as [ | n IH]; [reflexivity | ].
  cbn [replicate].
  rewrite (feed_cons _ _ _ _ _ (CheckPattern_unknown w)), IH.
  reflexivity.
Qed.

(** ** The invariant of the matcher *)

Lemma matcher_inv_initial : matcher_inv initial_world.
Proof. unfold matcher_inv, PATTERN_LENGTH. cbn. lia. Qed.

(** One call of [CheckPattern] from a state of the invariant returns and
    ends in a state of the invariant, with [pattern], the [rand()] count
    and the trace untouched. *)
Lemma CheckPattern_preserves (detected : Color_t) (w : world) :
  wf_world w -> matcher_inv w ->
  exists r w',
    CheckPattern detected w = Some (r, w') /\
    matcher_inv w' /\
    pattern w' = pattern w /\ rand_calls w' = rand_calls w /\
    trace w' = trace w /\
    (r = Ignore \/ r = HardFail \/ r = StepCorrect \/ r = SequenceComplete).
Proof.
  intros Hwf [Hi Hf].
  destruct (decide (detected = COLOR_UNKNOWN)) as [-> | Hu].
  { exists Ignore, w. rewrite CheckPattern_unknown.
    repeat split; (assumption || lia || auto). }
  destruct (wf_world_lookup w (index w) Hwf Hi) as [target Hp].
  destruct (decide (detected = target)) as [-> | Hne].
  - rewrite (CheckPattern_correct target w Hu Hi Hp).
    case_decide; eexists _, _; (split; [reflexivity | ]);
      unfold matcher_inv, PATTERN_LENGTH in *; cbn;
      repeat split; (lia || auto).
  - rewrite (CheckPattern_wrong detected target w Hu Hi Hp Hne)
      by (unfold is_int, INT_MIN, INT_MAX; lia).
    case_decide; eexists _, _; (split; [reflexivity | ]);
      unfold matcher_inv, PATTERN_LENGTH in *; cbn;
      repeat split; (lia || auto).
Qed.

Lemma wf_world_same_pattern (w w' : world) :
  pattern w' = pattern w -> wf_world w -> wf_world w'.
Proof. unfold wf_world. intros ->. trivial. Qed.

Lemma feed_preserves (observed : list Color_t) (w : world) :
  wf_world w -> matcher_inv w ->
  exists rs w',
    feed observed w = Some (rs, w') /\ matcher_inv w' /\
    pattern w' = pattern w /\ length rs = length observed.
Proof.
  revert w. induction observed as [ | detected rest IH]; intros w Hwf Hinv.
  { exists [], w. repeat split; apply Hinv. }
  destruct (CheckPattern_preserves detected w Hwf Hinv)
    as (r & w1 & Hrun & Hinv1 & Hp1 & _).
  destruct (IH w1 (wf_world_same_pattern _ _ Hp1 Hwf) Hinv1)
    as (rs & w2 & Hrest & Hinv2 & Hp2 & Hlen).
  exists (r :: rs), w2.
  rewrite (feed_cons _ _ _ _ _ Hrun), Hrest.
  repeat split; try apply Hinv2; [congruence | cbn; congruence].
Qed.

(** C7.  [0 <= index < PATTERN_LENGTH] and [0 <= failCount < 2] hold of
    the initial state, and every call of [CheckPattern] from a state where
    they hold returns and leaves them holding; so they hold after any run
    of calls from the initial state.  In particular whenever the call
    answers Ignore the failure counter it leaves is below 2. *)
Theorem matcher_invariant :
  matcher_inv initial_world /\
  (forall (detected : Color_t) (w : world),
     wf_world w -> matcher_inv w ->
     exists r w',
       CheckPattern detected w = Some (r, w') /\
       wf_world w' /\ matcher_inv w' /\
       (r = Ignore -> failCount w' < 2)) /\
  (forall observed : list Color_t,
     exists rs w',
       feed observed initial_world = Some (rs, w') /\ matcher_inv w').
Proof.
  split; [exact matcher_inv_initial | split].
  - intros detected w Hwf Hinv.
    destruct (CheckPattern_preserves detected w Hwf Hinv)
      as (r & w' & Hrun & Hinv' & Hp & _).
    exists r, w'. split; [exact Hrun | ].
    split; [exact (wf_world_same_pattern _ _ Hp Hwf) | ].
    split; [exact Hinv' | ]. intros _. apply Hinv'.
  - intros observed.
    destruct (feed_preserves observed initial_world)
      as (rs & w' & Hrun & Hinv & _);
      [reflexivity | exact matcher_inv_initial | ].
    exists rs, w'. split; assumption.
Qed.

(** The step of the invariant at a state one miss away from the
    threshold. *)
Lemma matcher_invariant_witness :
  let w := set_failCount 1 (set_index 2 initial_world) in
  exists r w',
    CheckPattern COLOR_RED w = Some (r, w') /\
    wf_world w' /\ matcher_inv w' /\
    (r = Ignore -> failCount w' < 2).
Proof.
  apply (proj1 (proj2 matcher_invariant) COLOR_RED
           (set_failCount 1 (set_index 2 initial_world)));
    [reflexivity | unfold matcher_inv, PATTERN_LENGTH; cbn; lia].
Defined.

(** ** Generate_Random_Pattern and Show_Pattern *)

Section RandomSource.

(** Any sequence of values [rand()] can return: the C library promises
    a value between 0 and [RAND_MAX]. *)
Variable rand_values : nat -> Z.
Hypothesis rand_nonneg : forall k : nat, 0 <= rand_values k.

(** The colour stored for the value [r] of [rand()]. *)
Lemma rand_color (r : Z) :
  0 <= r -> exists c, Color_of_Z (Z.rem r 3) = Some c /\ target_color c.
Proof.
  intros Hr. pose proof (Z.rem_bound_pos r 3 Hr ltac:(lia)) as Hb.
  assert (Hc : Z.rem r 3 = 0 \/ Z.rem r 3 = 1 \/ Z.rem r 3 = 2) by lia.
  unfold target_color.
  destruct Hc as [-> | [-> | ->]]; eexists; (split; [reflexivity | auto]).
Qed.

(** The body of the loop of [Generate_Random_Pattern]. *)
Lemma Generate_Random_Pattern_body (i : Z) (c : Color_t) (w : world) :
  0 <= i < PATTERN_LENGTH ->
  (Z.to_nat i < length (pattern w))%nat ->
  Color_of_Z (Z.rem (rand_values (rand_calls w)) 3) = Some c ->
  (r ← rand rand_values; c ← to_Color_t (Z.rem r 3); write_pattern i c) w =
    Some (tt, set_pattern (<[Z.to_nat i := c]> (pattern w))
                (set_rand_calls (S (rand_calls w)) w)).
Proof.
  intros Hi Hlen Hc.
  unfold mbind at 1, M_bind at 1, rand at 1.
  unfold to_Color_t. rewrite Hc. rewrite bind_ret.
  unfold write_pattern. cbn [pattern set_rand_calls].
  rewrite !bool_decide_eq_true_2 by assumption. reflexivity.
Qed.

(** [Generate_Random_Pattern] returns; it calls [rand()] four times and
    stores the four colours drawn, in order. *)
Lemma Generate_Random_Pattern_run (w : world) :
  wf_world w ->
  exists c0 c1 c2 c3,
    Color_of_Z (Z.rem (rand_values (rand_calls w)) 3) = Some c0 /\
    Color_of_Z (Z.rem (rand_values (1 + rand_calls w)) 3) = Some c1 /\
    Color_of_Z (Z.rem (rand_values (2 + rand_calls w)) 3) = Some c2 /\
    Color_of_Z (Z.rem (rand_values (3 + rand_calls w)) 3) = Some c3 /\
    Forall target_color [c0; c1; c2; c3] /\
    Generate_Random_Pattern rand_values w =
      Some (tt, set_pattern [c0; c1; c2; c3]
                  (set_rand_calls (4 + rand_calls w) w)).
Proof.
  intros Hwf. destruct (wf_world_four w Hwf) as (a & b & c & d & Hp).
  destruct (rand_color _ (rand_nonneg (rand_calls w))) as (c0 & H0 & T0).
  destruct (rand_color _ (rand_nonneg (1 + rand_calls w))) as (c1 & H1 & T1).
  destruct (rand_color _ (rand_nonneg (2 + rand_calls w))) as (c2 & H2 & T2).
  destruct (rand_color _ (rand_nonneg (3 + rand_calls w))) as (c3 & H3 & T3).
  exists c0, c1, c2, c3. repeat (split; [assumption | ]).
  split; [repeat first [apply Forall_nil_2 | apply Forall_cons_2]; assumption | ].
  destruct w as [p i f n t]. cbn [pattern rand_calls] in *. subst p.
  unfold Generate_Random_Pattern.
  change (Z.to_nat PATTERN_LENGTH) with 4%nat. cbn [for_loop].
  change (add_int 0 1) with 1. change (add_int 1 1) with 2.
  change (add_int 2 1) with 3.
  erewrite bind_Some
    by (apply Generate_Random_Pattern_body;
        [unfold PATTERN_LENGTH; lia | vm_compute; lia | exact H0]).
  erewrite bind_Some
    by (apply Generate_Random_Pattern_body;
        [unfold PATTERN_LENGTH; lia | vm_compute; lia | exact H1]).
  erewrite bind_Some
    by (apply Generate_Random_Pattern_body;
        [unfold PATTERN_LENGTH; lia | vm_compute; lia | exact H2]).
  erewrite bind_Some
    by (apply Generate_Random_Pattern_body;
        [unfold PATTERN_LENGTH; lia | vm_compute; lia | exact H3]).
  reflexivity.
Qed.

(** [Show_Pattern], one colour. *)
Lemma Show_Pattern_body (i : Z) (c : Color_t) (w : world) :
  0 <= i < PATTERN_LENGTH ->
  pattern w !! Z.to_nat i = Some c ->
  (c ← read_pattern i;
   match c with
   | COLOR_GREEN => call (LED2_Output RGB_LED_GREEN)
   | COLOR_RED => call (LED2_Output RGB_LED_RED)
   | COLOR_YELLOW => call (LED2_Output RGB_LED_YELLOW)
   | COLOR_UNKNOWN => mret tt
   end;;
   call (Clock_Delay1ms 700);;
   call (LED2_Output RGB_LED_OFF);;
   call (Clock_Delay1ms 300)) w =
    Some (tt, set_trace (trace w ++ presentation_of c) w).
Proof.
  intros Hi Hc.
  rewrite (bind_Some _ _ _ _ _ (read_pattern_Some _ _ _ Hi Hc)).
  destruct w as [p ix f n t].
  destruct c; rewrite ?bind_ret, ?bind_call; unfold call, modify, set_trace;
    cbn [presentation_of pattern index failCount rand_calls trace];
    rewrite <- ?app_assoc; reflexivity.
Qed.

(** [Show_Pattern] returns, changes nothing but the trace, and sends the
    presentation of the four colours of [pattern]. *)
Lemma Show_Pattern_run (w : world) :
  wf_world w ->
  Show_Pattern w = Some (tt, set_trace (trace w ++ presentation (pattern w)) w).
Proof.
  intros Hwf. destruct (wf_world_four w Hwf) as (a & b & c & d & Hp).
  destruct w as [p i f n t]. cbn [pattern] in Hp. subst p.
  unfold Show_Pattern.
  change (Z.to_nat PATTERN_LENGTH) with 4%nat. cbn [for_loop].
  change (add_int 0 1) with 1. change (add_int 1 1) with 2.
  change (add_int 2 1) with 3.
  do 4 (erewrite bind_Some
          by (apply Show_Pattern_body;
              [unfold PATTERN_LENGTH; lia | reflexivity])).
  unfold mret, M_ret, set_trace, presentation.
  cbn [pattern index failCount rand_calls trace map concat].
  rewrite <- !app_assoc, app_nil_r. reflexivity.
Qed.

End RandomSource.

(** ** Frames *)

(** [Detect_Color] returns on every input and only extends the trace. *)
Lemma Detect_Color_total (R G B : Z) (w : world) :
  exists c w', Detect_Color R G B w = Some (c, w') /\ same_objects w w'.
Proof.
  unfold Detect_Color.
  repeat match goal with
         | |- context [if ?b then _ else _] => destruct b
         end;
    rewrite !bind_call; eexists _, _; (split; [reflexivity | repeat split]).
Qed.

Lemma Hold_Color_total (R G B : Z) (w : world) :
  exists c w', Hold_Color R G B w = Some (c, w') /\ same_objects w w'.
Proof.
  destruct (Detect_Color_total R G B w) as (c & w1 & Hd & Hs).
  unfold Hold_Color. rewrite (bind_Some _ _ _ _ _ Hd).
  case_bool_decide; [rewrite bind_call | ];
    eexists _, _; (split; [reflexivity | ]); apply Hs.
Qed.

(** Whatever the state and the observation, a call of [CheckPattern] that
    returns leaves [pattern], the [rand()] count and the trace as they
    were. *)
Lemma CheckPattern_frame (detected : Color_t) (w w' : world) (r : Z) :
  CheckPattern detected w = Some (r, w') ->
  pattern w' = pattern w /\ rand_calls w' = rand_calls w /\
  trace w' = trace w.
Proof.
  unfold CheckPattern. case_bool_decide.
  { intros [= <- <-]. repeat split. }
  rewrite bind_gets. unfold mbind at 1, M_bind at 1, read_pattern.
  destruct (bool_decide (0 <= index w < PATTERN_LENGTH)); [ | discriminate].
  destruct (pattern w !! Z.to_nat (index w)) as [p | ]; [ | discriminate].
  case_bool_decide.
  - rewrite bind_modify, bind_gets, bind_modify, bind_gets.
    match goal with
    | |- context [if ?b then _ else _] => destruct b
    end; [rewrite bind_modify | ]; intros [= <- <-]; repeat split.
  - rewrite bind_gets, bind_modify, bind_gets.
    match goal with
    | |- context [if ?b then _ else _] => destruct b
    end; [rewrite !bind_modify | ]; intros [= <- <-]; repeat split.
Qed.

(** C8.  Whatever values [rand()] returns, [Generate_Random_Pattern]
    returns and leaves Green, Red or Yellow, and not Unknown, in each of
    the four cells of [pattern]. *)
Theorem Generate_Random_Pattern_no_unknown
  (rand_values : nat -> Z) (w : world) :
  (forall k : nat, 0 <= rand_values k) ->
  wf_world w ->
  exists w',
    Generate_Random_Pattern rand_values w = Some (tt, w') /\
    wf_world w' /\
    Forall (fun c => target_color c /\ c <> COLOR_UNKNOWN) (pattern w').
Proof.
  intros Hrand Hwf.
  destruct (Generate_Random_Pattern_run rand_values Hrand w Hwf)
    as (c0 & c1 & c2 & c3 & _ & _ & _ & _ & Hall & Hrun).
  eexists. split; [exact Hrun | ]. split; [reflexivity | ].
  cbn [pattern set_pattern].
  eapply Forall_impl; [exact Hall | ].
  intros c Hc. split; [exact Hc | exact (target_color_cases c Hc)].
Qed.

Lemma Generate_Random_Pattern_no_unknown_witness :
  exists w',
    Generate_Random_Pattern (fun k => 7 * Z.of_nat k + 5) initial_world
      = Some (tt, w') /\
    wf_world w' /\
    Forall (fun c => target_color c /\ c <> COLOR_UNKNOWN) (pattern w').
Proof.
  apply (Generate_Random_Pattern_no_unknown
           (fun k => 7 * Z.of_nat k + 5) initial_world);
    [intros k; lia | reflexivity].
Defined.

(** ** The loop of main *)

(** Runs the driver calls at the head of a computation. *)
Ltac run_calls :=
  repeat (rewrite bind_assoc ||
          (rewrite bind_call;
           cbn [set_trace trace pattern index failCount rand_calls])).

(** Settles the tests of [result] once its value is known. *)
Ltac settle_result :=
  repeat match goal with
         | |- context [bool_decide (?a = ?b)] =>
             let v := eval vm_compute in (bool_decide (a = b)) in
             match v with
             | true => change (bool_decide (a = b)) with true
             | false => change (bool_decide (a = b)) with false
             end
         end;
  cbv iota.

(** One pass of the loop from a state of the invariant returns and keeps
    the invariant.  Unless the result is [SequenceComplete], [pattern] and
    the [rand()] count are as before; on [HardFail] the pass ends with the
    presentation of that same [pattern]; on [SequenceComplete] a new
    pattern has been drawn with four calls of [rand()]. *)
Lemma loop_iteration_run (rand_values : nat -> Z) (R G B : Z) (w : world) :
  (forall k : nat, 0 <= rand_values k) ->
  wf_world w -> matcher_inv w ->
  exists result w',
    loop_iteration rand_values R G B w = Some (result, w') /\
    wf_world w' /\ matcher_inv w' /\
    (result <> SequenceComplete ->
       pattern w' = pattern w /\ rand_calls w' = rand_calls w) /\
    (result = HardFail ->
       exists t, trace w' = t ++ presentation (pattern w)) /\
    (result = SequenceComplete ->
       rand_calls w' = (4 + rand_calls w)%nat /\
       Forall target_color (pattern w') /\
       exists t, trace w' = t ++ presentation (pattern w')).
Proof.
  intros Hrand Hwf Hinv. unfold loop_iteration. run_calls.
  match goal with
  | |- context [(Hold_Color R G B ≫= _) ?w0] =>
      destruct (Hold_Color_total R G B w0) as (c & w1 & Hh & Hs)
  end.
  rewrite (bind_Some _ _ _ _ _ Hh).
  destruct Hs as (Hp1 & Hi1 & Hf1 & Hn1). cbn in Hp1, Hi1, Hf1, Hn1.
  assert (Hwf1 : wf_world w1) by exact (wf_world_same_pattern _ _ Hp1 Hwf).
  assert (Hinv1 : matcher_inv w1)
    by (unfold matcher_inv; rewrite Hi1, Hf1; exact Hinv).
  destruct (CheckPattern_preserves c w1 Hwf1 Hinv1)
    as (r & w2 & Hrun & Hinv2 & Hp2 & Hn2 & _ & Hr).
  rewrite (bind_Some _ _ _ _ _ Hrun).
  assert (Hwf2 : wf_world w2) by exact (wf_world_same_pattern _ _ Hp2 Hwf1).
  destruct Hr as [-> | [-> | [-> | ->]]].
  - (* Ignore *)
    eexists _, _. split; [reflexivity | ].
    repeat split; try apply Hinv2; try exact Hwf2; try discriminate;
      congruence.
  - (* HardFail *)
    settle_result. run_calls.
    match goal with
    | |- context [(Show_Pattern ≫= _) ?w3] =>
        rewrite (bind_Some _ _ _ _ _ (Show_Pattern_run w3 Hwf2))
    end.
    eexists _, _. split; [reflexivity | ].
    cbn [pattern index failCount rand_calls trace set_trace].
    repeat split; try apply Hinv2; try exact Hwf2; try discriminate;
      try congruence.
    intros _. eexists. rewrite Hp2, Hp1. reflexivity.
  - (* StepCorrect *)
    settle_result. run_calls.
    eexists _, _. split; [reflexivity | ].
    cbn [pattern index failCount rand_calls trace set_trace].
    repeat split; try apply Hinv2; try exact Hwf2; try discriminate;
      congruence.
  - (* SequenceComplete *)
    settle_result. run_calls.
    match goal with
    | |- context [(Generate_Random_Pattern _ ≫= _) ?w3] =>
        destruct (Generate_Random_Pattern_run rand_values Hrand w3 Hwf2)
          as (c0 & c1 & c2 & c3 & _ & _ & _ & _ & Hall & Hgen)
    end.
    rewrite (bind_Some _ _ _ _ _ Hgen).
    match goal with
    | |- context [(Show_Pattern ≫= _) ?w4] =>
        rewrite (bind_Some _ _ _ _ _ (Show_Pattern_run w4 eq_refl))
    end.
    eexists _, _. split; [reflexivity | ].
    cbn [pattern index failCount rand_calls trace set_trace set_pattern
         set_rand_calls].
    split; [reflexivity | ]. split; [exact Hinv2 | ].
    split; [intros Hne; contradiction Hne; reflexivity | ].
    split; [intros Heq; discriminate Heq | ]. intros _.
    split; [congruence | ]. split; [exact Hall | ].
    eexists. reflexivity.
Qed.

Lemma completions_cons (r : Z) (rs : list Z) :
  completions (r :: rs) =
    if decide (r = SequenceComplete) then S (completions rs)
    else completions rs.
Proof.
  unfold completions. rewrite filter_cons. case_decide; reflexivity.
Qed.

(** Any number of passes of the loop: [rand()] is called four times for
    each [SequenceComplete] among the results and not otherwise. *)
Lemma loop_run (rand_values : nat -> Z) (samples : list (Z * Z * Z))
  (w : world) :
  (forall k : nat, 0 <= rand_values k) ->
  wf_world w -> matcher_inv w ->
  exists results w',
    loop rand_values samples w = Some (results, w') /\
    wf_world w' /\ matcher_inv w' /\
    length results = length samples /\
    rand_calls w' = (4 * completions results + rand_calls w)%nat /\
    (completions results = 0%nat -> pattern w' = pattern w).
Proof.
  intros Hrand. revert w.
  induction samples as [ | [[R G] B] rest IH]; intros w Hwf Hinv.
  { exists [], w. repeat split; (assumption || apply Hinv). }
  destruct (loop_iteration_run rand_values R G B w Hrand Hwf Hinv)
    as (r & w1 & Hrun & Hwf1 & Hinv1 & Hkeep & _ & Hnew).
  destruct (IH w1 Hwf1 Hinv1)
    as (rs & w2 & Hrest & Hwf2 & Hinv2 & Hlen & Hcalls & Hpat).
  exists (r :: rs), w2. cbn [loop].
  rewrite (bind_Some _ _ _ _ _ Hrun), (bind_Some _ _ _ _ _ Hrest).
  split; [reflexivity | ]. split; [exact Hwf2 | ]. split; [exact Hinv2 | ].
  split; [cbn; congruence | ].
  rewrite completions_cons. case_decide as Hr.
  - destruct (Hnew Hr) as (Hn & _). split; [lia | discriminate].
  - destruct (Hkeep Hr) as (Hp & Hn). split; [lia | ].
    intros Hz. rewrite (Hpat Hz). exact Hp.
Qed.

(** C9.  [CheckPattern] never writes to [pattern]: whenever it returns,
    and from a state of the invariant it always does, the array is what
    it was, whatever the observation and the result.  In the loop of
    [main] a pass whose result is not [SequenceComplete] leaves [pattern]
    alone and calls [rand()] not at all; a pass that ends in [HardFail]
    ends by presenting that unchanged pattern; a new pattern is drawn
    only at the start of [main] and after each [SequenceComplete]. *)
Theorem pattern_redrawn_only_on_success (rand_values : nat -> Z) :
  (forall k : nat, 0 <= rand_values k) ->
  (forall (detected : Color_t) (w w' : world) (r : Z),
     CheckPattern detected w = Some (r, w') -> pattern w' = pattern w) /\
  (forall (detected : Color_t) (w : world),
     wf_world w -> matcher_inv w ->
     exists r w',
       CheckPattern detected w = Some (r, w') /\ pattern w' = pattern w) /\
  (forall (R G B : Z) (w : world),
     wf_world w -> matcher_inv w ->
     exists result w',
       loop_iteration rand_values R G B w = Some (result, w') /\
       (result <> SequenceComplete ->
          pattern w' = pattern w /\ rand_calls w' = rand_calls w) /\
       (result = HardFail ->
          exists t, trace w' = t ++ presentation (pattern w)) /\
       (result = SequenceComplete ->
          rand_calls w' = (4 + rand_calls w)%nat)) /\
  (forall samples : list (Z * Z * Z),
     exists results w',
       main rand_values samples initial_world = Some (results, w') /\
       rand_calls w' = (4 * (1 + completions results))%nat).
Proof.
  intros Hrand. split; [ | split; [ | split]].
  - intros detected w w' r Hrun.
    apply (CheckPattern_frame detected w w' r Hrun).
  - intros detected w Hwf Hinv.
    destruct (CheckPattern_preserves detected w Hwf Hinv)
      as (r & w' & Hrun & _ & Hp & _).
    exists r, w'. split; assumption.
  - intros R G B w Hwf Hinv.
    destruct (loop_iteration_run rand_values R G B w Hrand Hwf Hinv)
      as (r & w' & Hrun & _ & _ & Hkeep & Hshow & Hnew).
    exists r, w'. repeat split; try assumption; apply Hkeep || apply Hnew;
      assumption.
  - intros samples. unfold main.
    destruct (Generate_Random_Pattern_run rand_values Hrand initial_world
                eq_refl)
      as (c0 & c1 & c2 & c3 & _ & _ & _ & _ & _ & Hgen).
    rewrite (bind_Some _ _ _ _ _ Hgen).
    match goal with
    | |- context [(Show_Pattern ≫= _) ?w1] =>
        rewrite (bind_Some _ _ _ _ _ (Show_Pattern_run w1 eq_refl));
        cbn [set_trace trace pattern index failCount rand_calls
             set_pattern set_rand_calls initial_world]
    end.
    match goal with
    | |- context [loop _ _ ?w2] =>
        destruct (loop_run rand_values samples w2 Hrand eq_refl
                    matcher_inv_initial)
          as (results & w' & Hrun & _ & _ & _ & Hcalls & _)
    end.
    exists results, w'. split; [exact Hrun | ].
    rewrite Hcalls.
    cbn [rand_calls set_trace set_pattern set_rand_calls initial_world].
    lia.
Qed.

Lemma pattern_redrawn_only_on_success_witness :
  exists results w',
    main (fun k => 7 * Z.of_nat k + 5)
      [(0, 0, 0); (0, 60000, 0); (60000, 0, 0); (60000, 0, 0)]
      initial_world = Some (results, w') /\
    rand_calls w' = (4 * (1 + completions results))%nat.
Proof.
  apply (pattern_redrawn_only_on_success (fun k => 7 * Z.of_nat k + 5)).
  intros k. lia.
Defined.

(** ** SysTick_Handler *)

#[local] Instance is_uint8_dec (z : Z) : Decision (is_uint8 z).
Proof. unfold is_uint8. apply _. Defined.

(** A decidable property of the 8-bit values is settled by trying them
    all. *)
Lemma uint8_cases (P : Z -> Prop) `{!forall z, Decision (P z)} :
  bool_decide (Forall P (seqZ 0 256)) = true ->
  forall z, is_uint8 z -> P z.
Proof.
  intros Hall z Hz. apply bool_decide_eq_true_1 in Hall.
  rewrite Forall_seqZ in Hall. apply Hall. unfold is_uint8 in Hz. lia.
Qed.

Ltac try_all_uint8 :=
  cbv zeta;
  match goal with
  | |- forall z, is_uint8 z -> @?P z =>
      apply (uint8_cases P); vm_compute; reflexivity
  end.

(** The two updates of [P8->OUT], on the masks of the bits involved:
    the front LEDs are bits 0 and 5 (0x21), the back LEDs bits 6 and 7
    (0xC0), and 0x1E are the bits in between. *)
Lemma P8_toggle_bits (out : Z) :
  is_uint8 out ->
  let out' := wrap_u8 (Z.lxor (wrap_u8 (Z.land out (Z.lnot 0xC0))) 0x21) in
  is_uint8 out' /\
  Z.land out' 0xC0 = 0 /\
  Z.land out' 0x21 = Z.lxor (Z.land out 0x21) 0x21 /\
  Z.land out' 0x1E = Z.land out 0x1E.
Proof.
  revert out. try_all_uint8.
Qed.

Lemma P8_collision_bits (out : Z) :
  is_uint8 out ->
  let out' := wrap_u8 (Z.land (wrap_u8 (Z.lor out 0xC0)) (Z.lnot 0x21)) in
  is_uint8 out' /\
  Z.land out' 0xC0 = 0xC0 /\
  Z.land out' 0x21 = 0 /\
  Z.land out' 0x1E = Z.land out 0x1E.
Proof.
  revert out. try_all_uint8.
Qed.

Lemma wrap_u32_small (z : Z) : is_uint32 z -> wrap_u32 z = z.
Proof. unfold is_uint32, wrap_u32. intros Hz. apply Z.mod_small. lia. Qed.

Lemma wrap_u32_range (z : Z) : is_uint32 (wrap_u32 z).
Proof. unfold is_uint32, wrap_u32. apply Z.mod_pos_bound. lia. Qed.

(** X1.  While no collision is flagged, an interrupt leaves the
    millisecond counter below 500, whatever it was before (it may have run
    on for any time while a collision was flagged); the flag and the bits
    0x1E of [P8->OUT] are as they were. *)
Theorem SysTick_Handler_counter_bound (s : tick_state) :
  wf_tick s -> collision_detected s = 0 ->
  let s' := SysTick_Handler s in
  0 <= SysTick_ms_elapsed s' < 500 /\
  collision_detected s' = 0 /\
  wf_tick s' /\
  Z.land (P8_OUT s') 0x1E = Z.land (P8_OUT s) 0x1E.
Proof.
  intros (He & Hc & Ho) Hz. cbv zeta. unfold SysTick_Handler.
  rewrite bool_decide_eq_true_2 by exact Hz.
  pose proof (wrap_u32_range (SysTick_ms_elapsed s + 1)) as Hw.
  destruct (P8_toggle_bits (P8_OUT s) Ho) as (Ho' & _ & _ & Hframe).
  cbv zeta in Ho', Hframe.
  case_bool_decide; unfold wf_tick;
    cbn [SysTick_ms_elapsed collision_detected P8_OUT].
  - split; [lia | ]. split; [exact Hz | ]. split; [ | exact Hframe].
    split; [unfold is_uint32; lia | ]. split; assumption.
  - unfold is_uint32 in Hw.
    split; [lia | ]. split; [exact Hz | ]. split; [ | reflexivity].
    split; [exact Hw | ]. split; assumption.
Qed.

Lemma SysTick_Handler_counter_bound_witness :
  let s' := SysTick_Handler (mkTick 123456 0 0xFF) in
  0 <= SysTick_ms_elapsed s' < 500 /\
  collision_detected s' = 0 /\
  wf_tick s' /\
  Z.land (P8_OUT s') 0x1E = Z.land (P8_OUT (mkTick 123456 0 0xFF)) 0x1E.
Proof.
  apply (SysTick_Handler_counter_bound (mkTick 123456 0 0xFF));
    [unfold wf_tick, is_uint32, is_uint8; cbn; lia | reflexivity].
Defined.

(** X2.  While a collision is flagged, every interrupt turns the back
    LEDs (bits 6 and 7) on and the front LEDs (bits 0 and 5) off, leaves
    the bits 0x1E alone, and counts on modulo 2^32 without ever resetting
    the counter. *)
Theorem SysTick_Handler_collision (s : tick_state) :
  wf_tick s -> collision_detected s <> 0 ->
  let s' := SysTick_Handler s in
  Z.land (P8_OUT s') 0xC0 = 0xC0 /\
  Z.land (P8_OUT s') 0x21 = 0 /\
  Z.land (P8_OUT s') 0x1E = Z.land (P8_OUT s) 0x1E /\
  SysTick_ms_elapsed s' = (SysTick_ms_elapsed s + 1) mod 2 ^ 32 /\
  collision_detected s' = collision_detected s /\
  wf_tick s'.
Proof.
  intros (He & Hc & Ho) Hnz. cbv zeta. unfold SysTick_Handler.
  rewrite bool_decide_eq_false_2 by exact Hnz.
  cbn [SysTick_ms_elapsed collision_detected P8_OUT].
  destruct (P8_collision_bits (P8_OUT s) Ho) as (Ho' & Hb & Hf & Hframe).
  cbv zeta in Ho', Hb, Hf, Hframe.
  split; [exact Hb | ]. split; [exact Hf | ]. split; [exact Hframe | ].
  split; [reflexivity | ]. split; [reflexivity | ].
  unfold wf_tick. cbn [SysTick_ms_elapsed collision_detected P8_OUT].
  split; [apply wrap_u32_range | ]. split; assumption.
Qed.

Lemma SysTick_Handler_collision_witness :
  let s := mkTick (2 ^ 32 - 1) 1 0x21 in
  let s' := SysTick_Handler s in
  Z.land (P8_OUT s') 0xC0 = 0xC0 /\
  Z.land (P8_OUT s') 0x21 = 0 /\
  Z.land (P8_OUT s') 0x1E = Z.land (P8_OUT s) 0x1E /\
  SysTick_ms_elapsed s' = (SysTick_ms_elapsed s + 1) mod 2 ^ 32 /\
  collision_detected s' = collision_detected s /\
  wf_tick s'.
Proof.
  apply (SysTick_Handler_collision (mkTick (2 ^ 32 - 1) 1 0x21));
    [unfold wf_tick, is_uint32, is_uint8; cbn; lia | discriminate].
Defined.

Lemma ticks_add (n m : nat) (s : tick_state) :
  ticks (n + m) s = ticks m (ticks n s).
Proof.
  revert s. induction n as [ | n IH]; intros s; [reflexivity | ].
  cbn [ticks Nat.add]. apply IH.
Qed.

(** Interrupts that do not reach 500 ms only count. *)
Lemma ticks_quiet (n : nat) (s : tick_state) :
  0 <= SysTick_ms_elapsed s -> collision_detected s = 0 ->
  SysTick_ms_elapsed s + Z.of_nat n < 500 ->
  ticks n s =
    mkTick (SysTick_ms_elapsed s + Z.of_nat n) 0 (P8_OUT s).
Proof.
  revert s. induction n as [ | n IH]; intros s He Hc Hn.
  { destruct s as [e c o]. cbn in *. subst c. f_equal. lia. }
  cbn [ticks].
  assert (Hstep : SysTick_Handler s =
                  mkTick (SysTick_ms_elapsed s + 1) 0 (P8_OUT s)).
  { unfold SysTick_Handler. rewrite bool_decide_eq_true_2 by exact Hc.
    rewrite wrap_u32_small by (unfold is_uint32; lia).
    rewrite bool_decide_eq_false_2 by lia. rewrite Hc. reflexivity. }
  rewrite Hstep, IH; cbn [SysTick_ms_elapsed collision_detected P8_OUT];
    try lia; try reflexivity.
  f_equal. lia.
Qed.

(** X3.  With no collision flagged and the counter at 0, the first 499
    interrupts leave [P8->OUT] alone and the 500th toggles the front LEDs
    (bits 0 and 5), turns the back LEDs (bits 6 and 7) off and puts the
    counter back to 0; after 1000 interrupts the front LEDs are as at the
    start. *)
Theorem ticks_blink (s : tick_state) :
  wf_tick s -> collision_detected s = 0 -> SysTick_ms_elapsed s = 0 ->
  (forall n : nat, (n < 500)%nat ->
     ticks n s = mkTick (Z.of_nat n) 0 (P8_OUT s)) /\
  (SysTick_ms_elapsed (ticks 500 s) = 0 /\
   Z.land (P8_OUT (ticks 500 s)) 0x21 = Z.lxor (Z.land (P8_OUT s) 0x21) 0x21 /\
   Z.land (P8_OUT (ticks 500 s)) 0xC0 = 0) /\
  (SysTick_ms_elapsed (ticks 1000 s) = 0 /\
   Z.land (P8_OUT (ticks 1000 s)) 0x21 = Z.land (P8_OUT s) 0x21 /\
   Z.land (P8_OUT (ticks 1000 s)) 0x1E = Z.land (P8_OUT s) 0x1E).
Proof.
  intros (He & Hc & Ho) Hz H0.
  assert (Hquiet : forall (n : nat) (o : Z), (n < 500)%nat ->
            ticks n (mkTick 0 0 o) = mkTick (Z.of_nat n) 0 o).
  { intros n o Hn. rewrite ticks_quiet; cbn; try lia; reflexivity. }
  assert (Hhalf : forall o : Z, is_uint8 o ->
            ticks 500 (mkTick 0 0 o) =
              mkTick 0 0
                (wrap_u8 (Z.lxor (wrap_u8 (Z.land o (Z.lnot 0xC0))) 0x21))).
  { intros o _. change 500%nat with (499 + 1)%nat.
    rewrite ticks_add, Hquiet by lia. reflexivity. }
  destruct s as [e c o]. cbn in Hz, H0, Ho. subst e c.
  cbn [P8_OUT].
  destruct (P8_toggle_bits o Ho) as (Ho1 & Hback1 & Hfront1 & Hframe1).
  cbv zeta in Ho1, Hback1, Hfront1, Hframe1.
  split; [intros n Hn; apply Hquiet; exact Hn | ].
  split.
  - rewrite (Hhalf o Ho). cbn [SysTick_ms_elapsed P8_OUT]. auto.
  - change 1000%nat with (500 + 500)%nat.
    rewrite ticks_add, (Hhalf o Ho), (Hhalf _ Ho1).
    cbn [SysTick_ms_elapsed P8_OUT].
    match goal with
    | |- context [wrap_u8 (Z.lxor (wrap_u8 (Z.land ?o1 _)) _)] =>
        destruct (P8_toggle_bits o1 Ho1) as (_ & _ & Hfront2 & Hframe2)
    end.
    cbv zeta in Hfront2, Hframe2.
    split; [reflexivity | ]. split.
    + rewrite Hfront2, Hfront1.
      rewrite Z.lxor_assoc, Z.lxor_nilpotent, Z.lxor_0_r. reflexivity.
    + rewrite Hframe2, Hframe1. reflexivity.
Qed.

Lemma ticks_blink_witness :
  let s := mkTick 0 0 0xE1 in
  (forall n : nat, (n < 500)%nat ->
     ticks n s = mkTick (Z.of_nat n) 0 (P8_OUT s)) /\
  (SysTick_ms_elapsed (ticks 500 s) = 0 /\
   Z.land (P8_OUT (ticks 500 s)) 0x21 = Z.lxor (Z.land (P8_OUT s) 0x21) 0x21 /\
   Z.land (P8_OUT (ticks 500 s)) 0xC0 = 0) /\
  (SysTick_ms_elapsed (ticks 1000 s) = 0 /\
   Z.land (P8_OUT (ticks 1000 s)) 0x21 = Z.land (P8_OUT s) 0x21 /\
   Z.land (P8_OUT (ticks 1000 s)) 0x1E = Z.land (P8_OUT s) 0x1E).
Proof.
  apply (ticks_blink (mkTick 0 0 0xE1));
    [unfold wf_tick, is_uint32, is_uint8; cbn; lia | reflexivity
    | reflexivity].
Defined.

(** ** Detect_Color and Hold_Color, further *)

Lemma set_trace_app (t1 t2 : list event) (w : world) :
  set_trace (trace (set_trace (trace w ++ t1) w) ++ t2)
    (set_trace (trace w ++ t1) w)
  = set_trace (trace w ++ t1 ++ t2) w.
Proof. unfold set_trace. cbn. rewrite <- app_assoc. reflexivity. Qed.

(** [Detect_Color] on any three integers: it returns, and its calls are
    those of the colour returned. *)
Lemma Detect_Color_trace (R G B : Z) (w : world) :
  exists c,
    Detect_Color R G B w =
      Some (c, set_trace (trace w ++ detect_events c) w).
Proof.
  unfold Detect_Color.
  repeat match goal with
         | |- context [if ?b then _ else _] => destruct b
         end;
    [exists COLOR_GREEN | exists COLOR_YELLOW | exists COLOR_RED
    | exists COLOR_UNKNOWN];
    rewrite !bind_call; unfold mret, M_ret;
    rewrite ?set_trace_app; reflexivity.
Qed.

Lemma Detect_Color_run (R G B : Z) (w : world) :
  is_uint16 R -> is_uint16 G -> is_uint16 B ->
  Detect_Color R G B w =
    Some (classify R G B,
          set_trace (trace w ++ detect_events (classify R G B)) w).
Proof.
  intros HR HG HB.
  destruct (Detect_Color_classify R G B w HR HG HB) as (w' & Hc & _).
  destruct (Detect_Color_trace R G B w) as (c & Ht).
  rewrite Ht in Hc. injection Hc as Hc _. rewrite <- Hc. exact Ht.
Qed.

Lemma Hold_Color_run (R G B : Z) (w : world) :
  is_uint16 R -> is_uint16 G -> is_uint16 B ->
  Hold_Color R G B w =
    Some (classify R G B,
          set_trace (trace w ++ hold_events (classify R G B)) w).
Proof.
  intros HR HG HB. unfold Hold_Color, hold_events.
  rewrite (bind_Some _ _ _ _ _ (Detect_Color_run R G B w HR HG HB)).
  case_bool_decide as Hu.
  - rewrite bind_call, set_trace_app, decide_False by exact Hu.
    reflexivity.
  - rewrite Hu.
    rewrite decide_True by reflexivity. rewrite app_nil_r. reflexivity.
Qed.

(** X4.  For unsigned 16-bit readings the colour returned tells which
    rules hold: Green exactly when the Green rule holds, Yellow exactly
    when the Yellow rule holds and the Green rule does not, Red exactly
    when the Red rule holds and the Yellow rule does not, Unknown exactly
    when none holds.  The Green and the Red rule never hold together, so
    only the position of Yellow in the order of the tests matters. *)
Theorem Detect_Color_iff (R G B : Z) (w : world) :
  is_uint16 R -> is_uint16 G -> is_uint16 B ->
  exists c w',
    Detect_Color R G B w = Some (c, w') /\
    (c = COLOR_GREEN <-> Green_rule R G B) /\
    (c = COLOR_YELLOW <-> Yellow_rule R G B /\ ~ Green_rule R G B) /\
    (c = COLOR_RED <-> Red_rule R G B /\ ~ Yellow_rule R G B) /\
    (c = COLOR_UNKNOWN <->
       ~ Green_rule R G B /\ ~ Yellow_rule R G B /\ ~ Red_rule R G B) /\
    ~ (Green_rule R G B /\ Red_rule R G B).
Proof.
  intros HR HG HB. eexists _, _.
  split; [apply (Detect_Color_run R G B w HR HG HB) | ].
  assert (Hex : ~ (Green_rule R G B /\ Red_rule R G B))
    by (unfold Green_rule, Red_rule; lia).
  unfold classify.
  repeat case_decide; intuition (discriminate || reflexivity).
Qed.

Lemma Detect_Color_iff_witness :
  exists c w',
    Detect_Color 30000 10000 5000 initial_world = Some (c, w') /\
    (c = COLOR_GREEN <-> Green_rule 30000 10000 5000) /\
    (c = COLOR_YELLOW <->
       Yellow_rule 30000 10000 5000 /\ ~ Green_rule 30000 10000 5000) /\
    (c = COLOR_RED <->
       Red_rule 30000 10000 5000 /\ ~ Yellow_rule 30000 10000 5000) /\
    (c = COLOR_UNKNOWN <->
       ~ Green_rule 30000 10000 5000 /\ ~ Yellow_rule 30000 10000 5000 /\
       ~ Red_rule 30000 10000 5000) /\
    ~ (Green_rule 30000 10000 5000 /\ Red_rule 30000 10000 5000).
Proof.
  apply (Detect_Color_iff 30000 10000 5000 initial_world);
    unfold is_uint16, UINT16_MAX; lia.
Defined.

(** X5.  A dim reading, with R at most 6000 and G at most 3000, is
    Unknown whatever B is; and a reading with three equal channels is
    Yellow when their value lies strictly between 8192 and 12288 and
    Unknown otherwise. *)
Theorem Detect_Color_dim_and_gray (R G B v : Z) (w : world) :
  is_uint16 R -> is_uint16 G -> is_uint16 B -> is_uint16 v ->
  (R <= 6000 -> G <= 3000 ->
   fst <$> Detect_Color R G B w = Some COLOR_UNKNOWN) /\
  (8192 < v < 12288 ->
   fst <$> Detect_Color v v v w = Some COLOR_YELLOW) /\
  (~ 8192 < v < 12288 ->
   fst <$> Detect_Color v v v w = Some COLOR_UNKNOWN).
Proof.
  intros HR HG HB Hv.
  rewrite (Detect_Color_run R G B w HR HG HB).
  rewrite (Detect_Color_run v v v w Hv Hv Hv).
  unfold is_uint16, UINT16_MAX in *. cbn [fmap option_fmap option_map fst].
  unfold classify, Green_rule, Yellow_rule, Red_rule.
  repeat split; intros; repeat case_decide; (reflexivity || lia).
Qed.

Lemma Detect_Color_dim_and_gray_witness :
  (5000 <= 6000 -> 2500 <= 3000 ->
   fst <$> Detect_Color 5000 2500 40000 initial_world
     = Some COLOR_UNKNOWN) /\
  (8192 < 10000 < 12288 ->
   fst <$> Detect_Color 10000 10000 10000 initial_world
     = Some COLOR_YELLOW) /\
  (~ 8192 < 10000 < 12288 ->
   fst <$> Detect_Color 10000 10000 10000 initial_world
     = Some COLOR_UNKNOWN).
Proof.
  apply (Detect_Color_dim_and_gray 5000 2500 40000 10000 initial_world);
    unfold is_uint16, UINT16_MAX; lia.
Defined.

Lemma total_delay_app (t1 t2 : list event) :
  total_delay (t1 ++ t2) = total_delay t1 + total_delay t2.
Proof.
  unfold total_delay. induction t1 as [ | e t1 IH]; cbn; [reflexivity | ].
  fold (foldr (fun e acc => delay_of e + acc) 0 (t1 ++ t2)). lia.
Qed.

Lemma motor_calls_app (t1 t2 : list event) :
  motor_calls (t1 ++ t2) = motor_calls t1 ++ motor_calls t2.
Proof. apply List.filter_app. Qed.

Lemma LED2_after_app (led : RGB_LED) (t1 t2 : list event) :
  LED2_after led (t1 ++ t2) = LED2_after (LED2_after led t1) t2.
Proof. apply foldl_app. Qed.

(** X6.  [Hold_Color] on an unsigned 16-bit reading returns the colour
    of the classification and changes nothing but the trace.  It blocks
    for 1000 ms when that colour is Green, Red or Yellow and not at all
    when it is Unknown; it leaves LED2 showing the colour found, off for
    Unknown; it never calls the motors. *)
Theorem Hold_Color_effects (R G B : Z) (led : RGB_LED) (w : world) :
  is_uint16 R -> is_uint16 G -> is_uint16 B ->
  exists w' t,
    Hold_Color R G B w = Some (classify R G B, w') /\
    same_objects w w' /\
    trace w' = trace w ++ t /\
    total_delay t =
      (if decide (classify R G B = COLOR_UNKNOWN) then 0 else 1000) /\
    LED2_after led t = LED_of (classify R G B) /\
    motor_calls t = [].
Proof.
  intros HR HG HB. eexists _, (hold_events (classify R G B)).
  split; [apply (Hold_Color_run R G B w HR HG HB) | ].
  split; [apply same_objects_set_trace | ]. split; [reflexivity | ].
  destruct (classify R G B); repeat split.
Qed.

Lemma Hold_Color_effects_witness :
  exists w' t,
    Hold_Color 60000 1000 2000 initial_world
      = Some (classify 60000 1000 2000, w') /\
    same_objects initial_world w' /\
    trace w' = trace initial_world ++ t /\
    total_delay t =
      (if decide (classify 60000 1000 2000 = COLOR_UNKNOWN)
       then 0 else 1000) /\
    LED2_after RGB_LED_WHITE t = LED_of (classify 60000 1000 2000) /\
    motor_calls t = [].
Proof.
  apply (Hold_Color_effects 60000 1000 2000 RGB_LED_WHITE initial_world);
    unfold is_uint16, UINT16_MAX; lia.
Defined.

(** ** CheckPattern, further *)

(** X7.  Unknown observations are invisible to the matcher: a run of
    [CheckPattern] over any observations gives the same results other
    than Ignore, in the same order, and ends in the same state as the run
    over the same observations without the Unknown ones (or neither
    ends), from any state whatever.  So an Unknown between two misses does
    not keep them from being consecutive. *)
Theorem feed_skips_unknown (observed : list Color_t) (w : world) :
  let visible (p : list Z * world) :=
    (filter (fun r => r <> Ignore) (fst p), snd p) in
  visible <$> feed observed w =
  visible <$> feed (filter (fun c => c <> COLOR_UNKNOWN) observed) w.
Proof.
  cbv zeta.
  revert w. induction observed as [ | d rest IH]; intros w; [reflexivity | ].
  destruct (decide (d = COLOR_UNKNOWN)) as [-> | Hd].
  - rewrite filter_cons_False by (intros H; apply H; reflexivity).
    rewrite <- IH.
    rewrite (feed_cons _ _ _ _ _ (CheckPattern_unknown w)).
    destruct (feed rest w) as [[rs w'] | ]; [ | reflexivity].
    cbn [fmap option_fmap option_map fst snd].
    rewrite filter_cons_False by (intros H; apply H; reflexivity).
    reflexivity.
  - rewrite filter_cons_True by exact Hd.
    cbn [feed]. unfold mbind at 1 3, M_bind at 1 3.
    destruct (CheckPattern d w) as [[r w1] | ]; [ | reflexivity].
    specialize (IH w1). unfold mbind, M_bind.
    destruct (feed rest w1) as [[rs w2] | ];
      destruct (feed (filter (fun c => c <> COLOR_UNKNOWN) rest) w1)
        as [[rs' w2'] | ];
      cbn [fmap option_fmap option_map fst snd mret M_ret] in IH |- *;
      try discriminate IH; [ | reflexivity].
    injection IH as Hrs Hw. subst w2'.
    rewrite !filter_cons, Hrs. reflexivity.
Qed.

(** The five ways a call of [CheckPattern] can go from a state of the
    invariant. *)
Lemma CheckPattern_cases (detected : Color_t) (w : world) :
  wf_world w -> matcher_inv w ->
  exists target,
    pattern w !! Z.to_nat (index w) = Some target /\
    ((detected = COLOR_UNKNOWN /\
      CheckPattern detected w = Some (Ignore, w)) \/
     (detected <> COLOR_UNKNOWN /\ detected = target /\
      index w + 1 = PATTERN_LENGTH /\
      CheckPattern detected w =
        Some (SequenceComplete, set_index 0 (set_failCount 0 w))) \/
     (detected <> COLOR_UNKNOWN /\ detected = target /\
      index w + 1 < PATTERN_LENGTH /\
      CheckPattern detected w =
        Some (StepCorrect, set_index (index w + 1) (set_failCount 0 w))) \/
     (detected <> COLOR_UNKNOWN /\ detected <> target /\
      failCount w = 1 /\
      CheckPattern detected w =
        Some (HardFail, set_failCount 0 (set_index 0 w))) \/
     (detected <> COLOR_UNKNOWN /\ detected <> target /\
      failCount w = 0 /\
      CheckPattern detected w = Some (Ignore, set_failCount 1 w))).
Proof.
  intros Hwf [Hi Hf].
  destruct (wf_world_lookup w (index w) Hwf Hi) as [target Hp].
  exists target. split; [exact Hp | ].
  destruct (decide (detected = COLOR_UNKNOWN)) as [-> | Hu].
  { left. split; [reflexivity | apply CheckPattern_unknown]. }
  right. destruct (decide (detected = target)) as [-> | Hne].
  - rewrite (CheckPattern_correct target w Hu Hi Hp).
    case_decide; [left | right; left]; repeat split; try assumption; lia.
  - right; right.
    rewrite (CheckPattern_wrong detected target w Hu Hi Hp Hne)
      by (unfold is_int, INT_MIN, INT_MAX; lia).
    case_decide; [left | right]; repeat split; try assumption; try lia.
    assert (Hz : failCount w = 0) by lia. rewrite Hz. reflexivity.
Qed.

(** X8.  Misses fail the attempt only when no correct step lies between
    them: from a state with no failure recorded and the cursor below the
    last position, a miss, the right symbol and a miss at the next
    position are answered Ignore, StepCorrect, Ignore; the cursor has
    advanced by one and one failure is recorded. *)
Theorem feed_miss_hit_miss (x y target target' : Color_t) (w : world) :
  0 <= index w -> index w + 1 < PATTERN_LENGTH ->
  failCount w = 0 ->
  pattern w !! Z.to_nat (index w) = Some target ->
  pattern w !! Z.to_nat (index w + 1) = Some target' ->
  target <> COLOR_UNKNOWN ->
  x <> COLOR_UNKNOWN -> x <> target ->
  y <> COLOR_UNKNOWN -> y <> target' ->
  exists w',
    feed [x; target; y] w = Some ([Ignore; StepCorrect; Ignore], w') /\
    index w' = index w + 1 /\ failCount w' = 1 /\
    pattern w' = pattern w.
Proof.
  intros Hi0 Hi1 Hf Hp Hp' Ht Hx Hxt Hy Hyt.
  assert (Hi : 0 <= index w < PATTERN_LENGTH) by lia.
  pose proof (CheckPattern_wrong x target w Hx Hi Hp Hxt) as H1.
  rewrite Hf in H1. cbn in H1.
  specialize (H1 ltac:(unfold is_int, INT_MIN, INT_MAX; lia)).
  rewrite (feed_cons _ _ _ _ _ H1).
  pose proof (CheckPattern_correct target (set_failCount 1 w) Ht Hi Hp) as H2.
  change (index (set_failCount 1 w)) with (index w) in H2.
  rewrite decide_False in H2 by lia.
  rewrite (feed_cons _ _ _ _ _ H2).
  pose proof (CheckPattern_wrong y target'
                (set_index (index w + 1) (set_failCount 0 (set_failCount 1 w)))
                Hy) as H3.
  cbn [index failCount pattern set_index set_failCount] in H3.
  specialize (H3 ltac:(lia) Hp' Hyt
                 ltac:(unfold is_int, INT_MIN, INT_MAX; lia)).
  rewrite decide_False in H3 by lia.
  rewrite (feed_cons _ _ _ _ _ H3), feed_nil.
  eexists. split; [reflexivity | repeat split].
Qed.

Lemma feed_miss_hit_miss_witness :
  let w := mkWorld [COLOR_GREEN; COLOR_RED; COLOR_YELLOW; COLOR_GREEN]
             1 0 4%nat [] in
  exists w',
    feed [COLOR_GREEN; COLOR_RED; COLOR_RED] w
      = Some ([Ignore; StepCorrect; Ignore], w') /\
    index w' = index w + 1 /\ failCount w' = 1 /\
    pattern w' = pattern w.
Proof.
  apply (feed_miss_hit_miss COLOR_GREEN COLOR_RED COLOR_RED COLOR_YELLOW
           (mkWorld [COLOR_GREEN; COLOR_RED; COLOR_YELLOW; COLOR_GREEN]
              1 0 4%nat []));
    try discriminate; try reflexivity; cbn; unfold PATTERN_LENGTH; lia.
Defined.

(** X9.  From a state of the invariant the value returned tells what
    happened.  SequenceComplete is returned only at the last position, on
    the symbol stored there; StepCorrect only below it, on the symbol at
    the cursor; HardFail only on a symbol that is neither Unknown nor the
    one at the cursor while one failure is already recorded, so never on a
    first miss.  After SequenceComplete and after HardFail cursor and
    failure counter are both 0. *)
Theorem CheckPattern_outcome (detected : Color_t) (w w' : world) (r : Z) :
  wf_world w -> matcher_inv w ->
  CheckPattern detected w = Some (r, w') ->
  (r = SequenceComplete ->
     index w = PATTERN_LENGTH - 1 /\
     pattern w !! Z.to_nat (index w) = Some detected /\
     index w' = 0 /\ failCount w' = 0) /\
  (r = StepCorrect ->
     index w < PATTERN_LENGTH - 1 /\
     pattern w !! Z.to_nat (index w) = Some detected /\
     index w' = index w + 1 /\ failCount w' = 0) /\
  (r = HardFail ->
     failCount w = 1 /\ detected <> COLOR_UNKNOWN /\
     pattern w !! Z.to_nat (index w) <> Some detected /\
     index w' = 0 /\ failCount w' = 0) /\
  (r = Ignore ->
     index w' = index w /\
     (detected = COLOR_UNKNOWN /\ failCount w' = failCount w \/
      detected <> COLOR_UNKNOWN /\
      pattern w !! Z.to_nat (index w) <> Some detected /\
      failCount w = 0 /\ failCount w' = 1)).
Proof.
  intros Hwf Hinv Hrun.
  destruct (CheckPattern_cases detected w Hwf Hinv)
    as (target & Hp & [(Hu & H) | [(Hu & Ht & Hi & H) | [(Hu & Ht & Hi & H)
        | [(Hu & Ht & Hf & H) | (Hu & Ht & Hf & H)]]]]);
    rewrite H in Hrun; injection Hrun as <- <-; rewrite Hp;
    unfold Ignore, HardFail, StepCorrect, SequenceComplete;
    cbn [index failCount set_index set_failCount];
    (split; [ | split; [ | split]]); intros Hr; try discriminate Hr.
  - split; [reflexivity | left; split; [exact Hu | reflexivity]].
  - subst target. repeat split; lia.
  - subst target. repeat split; lia.
  - repeat split; try assumption. intros [= Heq]. apply Ht. congruence.
  - split; [reflexivity | right]. repeat split; try assumption.
    intros [= Heq]. apply Ht. congruence.
Qed.

Lemma CheckPattern_outcome_witness :
  let w := set_failCount 1 (set_index 2 initial_world) in
  let w' := initial_world in
  (HardFail = SequenceComplete ->
     index w = PATTERN_LENGTH - 1 /\
     pattern w !! Z.to_nat (index w) = Some COLOR_RED /\
     index w' = 0 /\ failCount w' = 0) /\
  (HardFail = StepCorrect ->
     index w < PATTERN_LENGTH - 1 /\
     pattern w !! Z.to_nat (index w) = Some COLOR_RED /\
     index w' = index w + 1 /\ failCount w' = 0) /\
  (HardFail = HardFail ->
     failCount w = 1 /\ COLOR_RED <> COLOR_UNKNOWN /\
     pattern w !! Z.to_nat (index w) <> Some COLOR_RED /\
     index w' = 0 /\ failCount w' = 0) /\
  (HardFail = Ignore ->
     index w' = index w /\
     (COLOR_RED = COLOR_UNKNOWN /\ failCount w' = failCount w \/
      COLOR_RED <> COLOR_UNKNOWN /\
      pattern w !! Z.to_nat (index w) <> Some COLOR_RED /\
      failCount w = 0 /\ failCount w' = 1)).
Proof.
  apply (CheckPattern_outcome COLOR_RED
           (set_failCount 1 (set_index 2 initial_world)) initial_world
           HardFail);
    [reflexivity | unfold matcher_inv, PATTERN_LENGTH; cbn; lia
    | reflexivity].
Defined.

(** X10.  A run of [CheckPattern] from a state of the invariant cannot
    complete the sequence faster than one symbol per call: the cursor at
    the end plus four times the number of SequenceComplete results is at
    most the cursor at the start plus the number of observations.  From
    a fresh matcher no run of fewer than four observations returns
    SequenceComplete. *)
Theorem feed_completions_bound (observed : list Color_t) (w : world) :
  wf_world w -> matcher_inv w ->
  exists rs w',
    feed observed w = Some (rs, w') /\
    index w' + 4 * Z.of_nat (completions rs)
      <= index w + Z.of_nat (length observed) /\
    (index w = 0 -> (length observed < 4)%nat -> completions rs = 0%nat).
Proof.
  intros Hwf Hinv.
  assert (Hmain : exists rs w',
            feed observed w = Some (rs, w') /\ matcher_inv w' /\
            index w' + 4 * Z.of_nat (completions rs)
              <= index w + Z.of_nat (length observed)).
  { revert w Hwf Hinv.
    induction observed as [ | d rest IH]; intros w Hwf Hinv.
    { exists [], w. rewrite feed_nil. cbn. split; [reflexivity | ].
      split; [exact Hinv | lia]. }
    assert (Hstep : exists r w1,
              CheckPattern d w = Some (r, w1) /\
              pattern w1 = pattern w /\ matcher_inv w1 /\
              index w1 + (if decide (r = SequenceComplete) then 4 else 0)
                <= index w + 1).
    { destruct (CheckPattern_preserves d w Hwf Hinv)
        as (r & w1 & Hrun & Hinv1 & Hp1 & _).
      exists r, w1. repeat (split; [assumption | ]).
      destruct Hinv as [Hi Hf]. unfold PATTERN_LENGTH in *.
      destruct (CheckPattern_cases d w Hwf (conj Hi Hf))
        as (target & _ & [(_ & H) | [(_ & _ & Hl & H) | [(_ & _ & Hl & H)
            | [(_ & _ & _ & H) | (_ & _ & _ & H)]]]]);
        rewrite H in Hrun; injection Hrun as <- <-;
        unfold Ignore, HardFail, StepCorrect, SequenceComplete;
        cbn [index set_index set_failCount]; case_decide;
        try discriminate; unfold PATTERN_LENGTH in *; lia. }
    destruct Hstep as (r & w1 & Hrun & Hp1 & Hinv1 & Hle1).
    destruct (IH w1 (wf_world_same_pattern _ _ Hp1 Hwf) Hinv1)
      as (rs & w2 & Hrest & Hinv2 & Hle).
    exists (r :: rs), w2. rewrite (feed_cons _ _ _ _ _ Hrun), Hrest.
    split; [reflexivity | ]. split; [exact Hinv2 | ].
    rewrite completions_cons. cbn [length].
    case_decide; lia. }
  destruct Hmain as (rs & w' & Hrun & Hinv' & Hle).
  exists rs, w'. split; [exact Hrun | ]. split; [exact Hle | ].
  intros Hz Hlen. destruct Hinv' as [Hi' _]. lia.
Qed.

Lemma feed_completions_bound_witness :
  exists rs w',
    feed [COLOR_GREEN; COLOR_GREEN; COLOR_GREEN] initial_world
      = Some (rs, w') /\
    index w' + 4 * Z.of_nat (completions rs)
      <= index initial_world + Z.of_nat (length
           [COLOR_GREEN; COLOR_GREEN; COLOR_GREEN]) /\
    (index initial_world = 0 ->
     (length [COLOR_GREEN; COLOR_GREEN; COLOR_GREEN] < 4)%nat ->
     completions rs = 0%nat).
Proof.
  apply (feed_completions_bound [COLOR_GREEN; COLOR_GREEN; COLOR_GREEN]
           initial_world);
    [reflexivity | exact matcher_inv_initial].
Defined.

(** ** Generate_Random_Pattern and Show_Pattern, further *)

(** X11.  [Generate_Random_Pattern] calls [rand()] exactly four times and
    stores in cell [k] the colour of value [r mod 3], [r] being what its
    call number [k] returned: 0 is Green, 1 Red, 2 Yellow.  What
    [pattern] held before does not matter, and cursor, failure counter
    and trace are left as they are. *)
Theorem Generate_Random_Pattern_draws (rand_values : nat -> Z) (w : world) :
  (forall k : nat, 0 <= rand_values k) ->
  wf_world w ->
  exists w',
    Generate_Random_Pattern rand_values w = Some (tt, w') /\
    rand_calls w' = (4 + rand_calls w)%nat /\
    index w' = index w /\ failCount w' = failCount w /\
    trace w' = trace w /\
    length (pattern w') = 4%nat /\
    (forall k : nat, (k < 4)%nat ->
       pattern w' !! k
         = Color_of_Z (rand_values (k + rand_calls w)%nat mod 3)).
Proof.
  intros Hrand Hwf.
  destruct (Generate_Random_Pattern_run rand_values Hrand w Hwf)
    as (c0 & c1 & c2 & c3 & H0 & H1 & H2 & H3 & _ & Hrun).
  eexists. split; [exact Hrun | ].
  cbn [pattern index failCount rand_calls trace set_pattern set_rand_calls].
  repeat (split; [reflexivity | ]).
  intros k Hk.
  rewrite <- Z.rem_mod_nonneg by (apply Hrand || lia).
  destruct k as [ | [ | [ | [ | k]]]]; try lia; cbn [lookup list_lookup];
    symmetry; assumption.
Qed.

Lemma Generate_Random_Pattern_draws_witness :
  exists w',
    Generate_Random_Pattern (fun k => 7 * Z.of_nat k + 5) initial_world
      = Some (tt, w') /\
    rand_calls w' = (4 + rand_calls initial_world)%nat /\
    index w' = index initial_world /\
    failCount w' = failCount initial_world /\
    trace w' = trace initial_world /\
    length (pattern w') = 4%nat /\
    (forall k : nat, (k < 4)%nat ->
       pattern w' !! k
         = Color_of_Z ((fun k => 7 * Z.of_nat k + 5)
                         (k + rand_calls initial_world)%nat mod 3)).
Proof.
  apply (Generate_Random_Pattern_draws (fun k => 7 * Z.of_nat k + 5)
           initial_world);
    [intros k; lia | reflexivity].
Defined.

(** X12.  [Show_Pattern] on the four cells of [pattern] returns and
    changes nothing but the trace.  It lights LED2 in the colour of each
    cell in order, skipping a cell that holds Unknown, blocks for 4000 ms
    in all, leaves LED2 off and never calls the motors. *)
Theorem Show_Pattern_effects (led : RGB_LED) (w : world) :
  wf_world w ->
  exists w' t,
    Show_Pattern w = Some (tt, w') /\
    same_objects w w' /\
    trace w' = trace w ++ t /\
    lit t = map LED_of (filter (fun c => c <> COLOR_UNKNOWN) (pattern w)) /\
    total_delay t = 4000 /\
    LED2_after led t = RGB_LED_OFF /\
    motor_calls t = [].
Proof.
  intros Hwf. exists (set_trace (trace w ++ presentation (pattern w)) w),
    (presentation (pattern w)).
  split; [exact (Show_Pattern_run w Hwf) | ].
  split; [apply same_objects_set_trace | ]. split; [reflexivity | ].
  destruct (wf_world_four w Hwf) as (a & b & c & d & ->).
  destruct a, b, c, d; repeat split.
Qed.

Lemma Show_Pattern_effects_witness :
  let w := mkWorld [COLOR_RED; COLOR_UNKNOWN; COLOR_YELLOW; COLOR_GREEN]
             0 0 0%nat [] in
  exists w' t,
    Show_Pattern w = Some (tt, w') /\
    same_objects w w' /\
    trace w' = trace w ++ t /\
    lit t = map LED_of (filter (fun c => c <> COLOR_UNKNOWN) (pattern w)) /\
    total_delay t = 4000 /\
    LED2_after RGB_LED_PINK t = RGB_LED_OFF /\
    motor_calls t = [].
Proof.
  apply (Show_Pattern_effects RGB_LED_PINK
           (mkWorld [COLOR_RED; COLOR_UNKNOWN; COLOR_YELLOW; COLOR_GREEN]
              0 0 0%nat [])).
  reflexivity.
Defined.

(** ** The loop of main, further *)

Lemma bind_read_pattern {B : Type} (i : Z) (f : Color_t -> M B) (w : world) :
  (read_pattern i ≫= f) w =
    if bool_decide (0 <= i < PATTERN_LENGTH) then
      match pattern w !! Z.to_nat i with
      | Some c => f c w
      | None => None
      end
    else None.
Proof.
  unfold mbind, M_bind, read_pattern.
  destruct (bool_decide (0 <= i < PATTERN_LENGTH)); [ | reflexivity].
  destruct (pattern w !! Z.to_nat i); reflexivity.
Qed.

(** [CheckPattern] neither reads nor writes the trace. *)
Lemma CheckPattern_set_trace (detected : Color_t) (t : list event)
  (w : world) :
  CheckPattern detected (set_trace t w) =
    (fun p : Z * world => (fst p, set_trace t (snd p)))
      <$> CheckPattern detected w.
Proof.
  unfold CheckPattern. case_bool_decide; [reflexivity | ].
  rewrite !bind_gets, !bind_read_pattern.
  cbn [index pattern set_trace].
  destruct (bool_decide (0 <= index w < PATTERN_LENGTH)); [ | reflexivity].
  destruct (pattern w !! Z.to_nat (index w)) as [p | ]; [ | reflexivity].
  case_bool_decide.
  - rewrite !bind_modify, !bind_gets, !bind_modify, !bind_gets.
    cbn [index failCount set_index set_failCount set_trace pattern
         rand_calls trace].
    match goal with
    | |- context [if ?b then _ else _] => destruct b
    end; reflexivity.
  - rewrite !bind_gets, !bind_modify, !bind_gets.
    cbn [index failCount set_index set_failCount set_trace pattern
         rand_calls trace].
    match goal with
    | |- context [if ?b then _ else _] => destruct b
    end; reflexivity.
Qed.

Lemma set_trace_set_trace (t t2 : list event) (w : world) :
  set_trace (trace (set_trace t w) ++ t2) (set_trace t w)
  = set_trace (t ++ t2) w.
Proof. reflexivity. Qed.

Ltac run_calls_on_trace :=
  repeat (rewrite bind_assoc ||
          (rewrite bind_call; rewrite set_trace_set_trace)).

(** One pass of the loop on an unsigned 16-bit sample, in full: the
    result and the matcher are those of [CheckPattern] on the colour of
    the classification, and the calls made are those of the sample, of
    [Hold_Color], of the branch taken on the result and, after
    SequenceComplete and HardFail, of the presentation. *)
Lemma loop_iteration_pass (rand_values : nat -> Z) (R G B : Z) (w : world) :
  (forall k : nat, 0 <= rand_values k) ->
  is_uint16 R -> is_uint16 G -> is_uint16 B ->
  wf_world w -> matcher_inv w ->
  exists r w2 w',
    CheckPattern (classify R G B) w = Some (r, w2) /\
    loop_iteration rand_values R G B w = Some (r, w') /\
    index w' = index w2 /\ failCount w' = failCount w2 /\
    wf_world w' /\
    (r <> SequenceComplete ->
       pattern w' = pattern w /\ rand_calls w' = rand_calls w) /\
    (r = SequenceComplete ->
       Forall target_color (pattern w') /\
       rand_calls w' = (4 + rand_calls w)%nat) /\
    trace w' =
      trace w ++ sample_events R G B ++ hold_events (classify R G B) ++
      result_events r ++
      (if decide (r = SequenceComplete \/ r = HardFail)
       then presentation (pattern w') else []).
Proof.
  intros Hrand HR HG HB Hwf Hinv.
  destruct (CheckPattern_preserves (classify R G B) w Hwf Hinv)
    as (r & w2 & Hrun & Hinv2 & Hp2 & Hn2 & Ht2 & Hr).
  assert (Hwf2 : wf_world w2) by exact (wf_world_same_pattern _ _ Hp2 Hwf).
  exists r, w2.
  unfold loop_iteration.
  rewrite bind_call. run_calls_on_trace.
  rewrite (bind_Some _ _ _ _ _ (Hold_Color_run R G B _ HR HG HB)).
  rewrite set_trace_set_trace.
  rewrite (bind_Some _ _ (set_trace _ w) (set_trace _ w2) r)
    by (rewrite CheckPattern_set_trace, Hrun; reflexivity).
  destruct Hr as [-> | [-> | [-> | ->]]]; settle_result.
  - (* Ignore *)
    eexists. split; [exact Hrun | ]. split; [reflexivity | ].
    cbn [pattern index failCount rand_calls trace set_trace].
    repeat (split; [auto; fail | ]).
    split; [intros Hd; discriminate Hd | ].
    rewrite decide_False by (intros [Hd | Hd]; discriminate Hd).
    change (result_events Ignore) with (@nil event). cbn [app].
    rewrite app_nil_r, <- !app_assoc. reflexivity.
  - (* HardFail *)
    run_calls_on_trace.
    match goal with
    | |- context [(Show_Pattern ≫= _) ?w3] =>
        rewrite (bind_Some _ _ _ _ _ (Show_Pattern_run w3 Hwf2))
    end.
    eexists. split; [exact Hrun | ]. split; [reflexivity | ].
    cbn [pattern index failCount rand_calls trace set_trace].
    repeat (split; [auto; fail | ]).
    split; [intros Hd; discriminate Hd | ].
    rewrite decide_True by (right; reflexivity).
    rewrite <- !app_assoc. reflexivity.
  - (* StepCorrect *)
    rewrite bind_assoc, bind_call. run_calls_on_trace.
    eexists. split; [exact Hrun | ]. split; [reflexivity | ].
    cbn [pattern index failCount rand_calls trace set_trace].
    repeat (split; [auto; fail | ]).
    split; [intros Hd; discriminate Hd | ].
    rewrite decide_False by (intros [Hd | Hd]; discriminate Hd).
    rewrite <- !app_assoc. reflexivity.
  - (* SequenceComplete *)
    run_calls_on_trace.
    match goal with
    | |- context [(Generate_Random_Pattern _ ≫= _) ?w3] =>
        destruct (Generate_Random_Pattern_run rand_values Hrand w3 Hwf2)
          as (c0 & c1 & c2 & c3 & _ & _ & _ & _ & Hall & Hgen)
    end.
    rewrite (bind_Some _ _ _ _ _ Hgen).
    match goal with
    | |- context [(Show_Pattern ≫= _) ?w4] =>
        rewrite (bind_Some _ _ _ _ _ (Show_Pattern_run w4 eq_refl))
    end.
    eexists. split; [exact Hrun | ]. split; [reflexivity | ].
    cbn [pattern index failCount rand_calls trace set_trace set_pattern
         set_rand_calls].
    split; [reflexivity | ]. split; [reflexivity | ].
    split; [reflexivity | ].
    split; [intros Hne; contradiction Hne; reflexivity | ].
    split; [intros _; split; [exact Hall | congruence] | ].
    rewrite decide_True by (left; reflexivity).
    rewrite <- !app_assoc. reflexivity.
Qed.

Lemma total_delay_presentation (p : list Color_t) :
  total_delay (presentation p) = 1000 * Z.of_nat (length p).
Proof.
  unfold presentation. induction p as [ | c p IH]; [reflexivity | ].
  cbn [map concat length]. rewrite total_delay_app, IH.
  destruct c; cbn; lia.
Qed.

Lemma LED2_after_presentation (led : RGB_LED) (p : list Color_t) :
  p <> [] -> LED2_after led (presentation p) = RGB_LED_OFF.
Proof.
  unfold presentation. revert led.
  induction p as [ | c p IH]; intros led Hp; [contradiction | ].
  cbn [map concat]. rewrite LED2_after_app.
  destruct p as [ | c' p].
  - destruct c; reflexivity.
  - apply IH. discriminate.
Qed.

Lemma motor_calls_presentation (p : list Color_t) :
  motor_calls (presentation p) = [].
Proof.
  unfold presentation. induction p as [ | c p IH]; [reflexivity | ].
  cbn [map concat]. rewrite motor_calls_app, IH. destruct c; reflexivity.
Qed.

Lemma wf_world_length (w : world) : wf_world w -> length (pattern w) = 4%nat.
Proof. unfold wf_world, PATTERN_LENGTH. lia. Qed.

(** X13.  A pass of the loop on an unsigned 16-bit sample returns; its
    result and the matcher it leaves are those of [CheckPattern] called on
    the colour of the classification.  After SequenceComplete and after
    HardFail the matcher is fresh (cursor 0, no failure), and after
    SequenceComplete the new pattern holds Green, Red and Yellow only.  A
    sample that classifies as Unknown gives Ignore and changes nothing but
    the trace. *)
Theorem loop_iteration_matcher (rand_values : nat -> Z) (R G B : Z)
  (w : world) :
  (forall k : nat, 0 <= rand_values k) ->
  is_uint16 R -> is_uint16 G -> is_uint16 B ->
  wf_world w -> matcher_inv w ->
  exists r w2 w',
    CheckPattern (classify R G B) w = Some (r, w2) /\
    loop_iteration rand_values R G B w = Some (r, w') /\
    index w' = index w2 /\ failCount w' = failCount w2 /\
    wf_world w' /\ matcher_inv w' /\
    (r = SequenceComplete \/ r = HardFail ->
       index w' = 0 /\ failCount w' = 0) /\
    (r = SequenceComplete -> Forall target_color (pattern w')) /\
    (classify R G B = COLOR_UNKNOWN -> r = Ignore /\ same_objects w w').
Proof.
  intros Hrand HR HG HB Hwf Hinv.
  destruct (loop_iteration_pass rand_values R G B w Hrand HR HG HB Hwf Hinv)
    as (r & w2 & w' & Hcheck & Hrun & Hi & Hf & Hwf' & Hkeep & Hnew & _).
  exists r, w2, w'. repeat (split; [assumption | ]).
  destruct (CheckPattern_preserves (classify R G B) w Hwf Hinv)
    as (r' & w2' & Hcheck' & Hinv2 & _).
  rewrite Hcheck in Hcheck'. injection Hcheck' as <- <-.
  split; [unfold matcher_inv; rewrite Hi, Hf; exact Hinv2 | ].
  destruct (CheckPattern_cases (classify R G B) w Hwf Hinv)
    as (target & _ & [(Hu & H) | [(Hu & _ & _ & H) | [(Hu & _ & _ & H)
        | [(Hu & _ & _ & H) | (Hu & _ & _ & H)]]]]);
    rewrite H in Hcheck; injection Hcheck as <- <-;
    rewrite Hi, Hf; cbn [index failCount set_index set_failCount];
    (split; [intros [Hd | Hd]; try discriminate Hd; split; reflexivity | ]);
    (split; [intros Hd; try discriminate Hd; apply Hnew; reflexivity | ]);
    intros Hc; try contradiction.
  split; [reflexivity | ].
  destruct (Hkeep ltac:(discriminate)) as (Hp & Hn).
  repeat split; assumption.
Qed.

Lemma loop_iteration_matcher_witness :
  exists r w2 w',
    CheckPattern (classify 0 60000 0) initial_world = Some (r, w2) /\
    loop_iteration (fun k => 7 * Z.of_nat k + 5) 0 60000 0 initial_world
      = Some (r, w') /\
    index w' = index w2 /\ failCount w' = failCount w2 /\
    wf_world w' /\ matcher_inv w' /\
    (r = SequenceComplete \/ r = HardFail ->
       index w' = 0 /\ failCount w' = 0) /\
    (r = SequenceComplete -> Forall target_color (pattern w')) /\
    (classify 0 60000 0 = COLOR_UNKNOWN ->
     r = Ignore /\ same_objects initial_world w').
Proof.
  apply (loop_iteration_matcher (fun k => 7 * Z.of_nat k + 5) 0 60000 0
           initial_world);
    [intros k; lia | unfold is_uint16, UINT16_MAX; lia
    | unfold is_uint16, UINT16_MAX; lia | unfold is_uint16, UINT16_MAX; lia
    | reflexivity | exact matcher_inv_initial].
Defined.

(** Settles the tests on a result that is known. *)
Ltac settle_decides :=
  repeat match goal with
         | |- context [decide (?a = ?b \/ ?c = ?d)] =>
             first
               [ rewrite (decide_True (P := a = b \/ c = d))
                   by (first [left; reflexivity | right; reflexivity])
               | rewrite (decide_False (P := a = b \/ c = d))
                   by (intros [Hd | Hd]; discriminate Hd) ]
         | |- context [decide (?a = ?b :> Z)] =>
             first
               [ rewrite (decide_True (P := a = b)) by reflexivity
               | rewrite (decide_False (P := a = b)) by discriminate ]
         end.

(** X14.  The time a pass of the loop blocks in [Clock_Delay1ms] depends
    on the colour found and on the result only: 50 ms for the sample,
    1000 ms more when the colour is not Unknown, then 500 ms after
    StepCorrect and 11000 ms after SequenceComplete as after HardFail
    (7000 ms of LED and motors, 4000 ms of presentation). *)
Theorem loop_iteration_delay (rand_values : nat -> Z) (R G B : Z)
  (w : world) :
  (forall k : nat, 0 <= rand_values k) ->
  is_uint16 R -> is_uint16 G -> is_uint16 B ->
  wf_world w -> matcher_inv w ->
  exists r w' t,
    loop_iteration rand_values R G B w = Some (r, w') /\
    trace w' = trace w ++ t /\
    total_delay t =
      50 +
      (if decide (classify R G B = COLOR_UNKNOWN) then 0 else 1000) +
      (if decide (r = StepCorrect) then 500
       else if decide (r = SequenceComplete \/ r = HardFail) then 11000
       else 0).
Proof.
  intros Hrand HR HG HB Hwf Hinv.
  destruct (loop_iteration_pass rand_values R G B w Hrand HR HG HB Hwf Hinv)
    as (r & w2 & w' & Hcheck & Hrun & _ & _ & Hwf' & _ & _ & Ht).
  exists r, w'. eexists. split; [exact Hrun | ]. split; [exact Ht | ].
  rewrite !total_delay_app.
  assert (Hhold : total_delay (hold_events (classify R G B)) =
                  if decide (classify R G B = COLOR_UNKNOWN) then 0 else 1000)
    by (destruct (classify R G B); reflexivity).
  rewrite Hhold. change (total_delay (sample_events R G B)) with 50.
  destruct (CheckPattern_preserves (classify R G B) w Hwf Hinv)
    as (r' & w2' & Hcheck' & _ & _ & _ & _ & Hr).
  rewrite Hcheck in Hcheck'. injection Hcheck' as <- <-.
  pose proof (total_delay_presentation (pattern w')) as Hpres.
  rewrite (wf_world_length w' Hwf') in Hpres.
  destruct Hr as [-> | [-> | [-> | ->]]].
  - change (total_delay (result_events Ignore)) with 0.
    settle_decides; cbn [total_delay foldr]; lia.
  - change (total_delay (result_events HardFail)) with 7000.
    settle_decides; lia.
  - change (total_delay (result_events StepCorrect)) with 500.
    settle_decides; cbn [total_delay foldr]; lia.
  - change (total_delay (result_events SequenceComplete)) with 7000.
    settle_decides; lia.
Qed.

Lemma loop_iteration_delay_witness :
  exists r w' t,
    loop_iteration (fun k => 7 * Z.of_nat k + 5) 0 60000 0
      (set_index 3 initial_world) = Some (r, w') /\
    trace w' = trace (set_index 3 initial_world) ++ t /\
    total_delay t =
      50 +
      (if decide (classify 0 60000 0 = COLOR_UNKNOWN) then 0 else 1000) +
      (if decide (r = StepCorrect) then 500
       else if decide (r = SequenceComplete \/ r = HardFail) then 11000
       else 0).
Proof.
  apply (loop_iteration_delay (fun k => 7 * Z.of_nat k + 5) 0 60000 0
           (set_index 3 initial_world));
    [intros k; lia | unfold is_uint16, UINT16_MAX; lia
    | unfold is_uint16, UINT16_MAX; lia | unfold is_uint16, UINT16_MAX; lia
    | reflexivity | unfold matcher_inv, PATTERN_LENGTH; cbn; lia].
Defined.

(** X15.  In a pass of the loop the motors are called only after
    SequenceComplete (forward, backward, stop) and after HardFail (left,
    right, stop), so the last motor call of a pass that makes one is
    [Motor_Stop].  The pass leaves LED2 off, except after Ignore, when LED2
    keeps showing the colour found (off for Unknown). *)
Theorem loop_iteration_motors_and_LED (rand_values : nat -> Z) (R G B : Z)
  (led : RGB_LED) (w : world) :
  (forall k : nat, 0 <= rand_values k) ->
  is_uint16 R -> is_uint16 G -> is_uint16 B ->
  wf_world w -> matcher_inv w ->
  exists r w' t,
    loop_iteration rand_values R G B w = Some (r, w') /\
    trace w' = trace w ++ t /\
    motor_calls t =
      (if decide (r = SequenceComplete) then
         [Motor_Forward 3000 3000; Motor_Backward 3000 3000; Motor_Stop]
       else if decide (r = HardFail) then
         [Motor_Left 4500 4500; Motor_Right 4500 4500; Motor_Stop]
       else []) /\
    LED2_after led t =
      (if decide (r = Ignore) then LED_of (classify R G B)
       else RGB_LED_OFF).
Proof.
  intros Hrand HR HG HB Hwf Hinv.
  destruct (loop_iteration_pass rand_values R G B w Hrand HR HG HB Hwf Hinv)
    as (r & w2 & w' & Hcheck & Hrun & _ & _ & Hwf' & _ & _ & Ht).
  exists r, w'. eexists. split; [exact Hrun | ]. split; [exact Ht | ].
  assert (Hne : pattern w' <> []).
  { intros He. apply wf_world_length in Hwf'. rewrite He in Hwf'.
    discriminate Hwf'. }
  rewrite !motor_calls_app, !LED2_after_app.
  assert (Hm : motor_calls (hold_events (classify R G B)) = [])
    by (destruct (classify R G B); reflexivity).
  assert (Hl : forall l, LED2_after l (hold_events (classify R G B))
                         = LED_of (classify R G B))
    by (intros l; destruct (classify R G B); reflexivity).
  rewrite Hm, Hl. change (motor_calls (sample_events R G B)) with (@nil event).
  destruct (CheckPattern_preserves (classify R G B) w Hwf Hinv)
    as (r' & w2' & Hcheck' & _ & _ & _ & _ & Hr).
  rewrite Hcheck in Hcheck'. injection Hcheck' as <- <-.
  destruct Hr as [-> | [-> | [-> | ->]]]; settle_decides;
    rewrite ?motor_calls_presentation, ?LED2_after_presentation
      by exact Hne;
    split; reflexivity.
Qed.

Lemma loop_iteration_motors_and_LED_witness :
  exists r w' t,
    loop_iteration (fun k => 7 * Z.of_nat k + 5) 60000 0 0
      (set_failCount 1 initial_world) = Some (r, w') /\
    trace w' = trace (set_failCount 1 initial_world) ++ t /\
    motor_calls t =
      (if decide (r = SequenceComplete) then
         [Motor_Forward 3000 3000; Motor_Backward 3000 3000; Motor_Stop]
       else if decide (r = HardFail) then
         [Motor_Left 4500 4500; Motor_Right 4500 4500; Motor_Stop]
       else []) /\
    LED2_after RGB_LED_WHITE t =
      (if decide (r = Ignore) then LED_of (classify 60000 0 0)
       else RGB_LED_OFF).
Proof.
  apply (loop_iteration_motors_and_LED (fun k => 7 * Z.of_nat k + 5)
           60000 0 0 RGB_LED_WHITE (set_failCount 1 initial_world));
    [intros k; lia | unfold is_uint16, UINT16_MAX; lia
    | unfold is_uint16, UINT16_MAX; lia | unfold is_uint16, UINT16_MAX; lia
    | reflexivity | unfold matcher_inv, PATTERN_LENGTH; cbn; lia].
Defined.

(** A call of [CheckPattern] moves the cursor up by at most one, and a
    call that completes the sequence started at the last position. *)
Lemma CheckPattern_progress (detected : Color_t) (w w1 : world) (r : Z) :
  wf_world w -> matcher_inv w ->
  CheckPattern detected w = Some (r, w1) ->
  matcher_inv w1 /\
  index w1 + (if decide (r = SequenceComplete) then 4 else 0)
    <= index w + 1.
Proof.
  intros Hwf Hinv Hrun.
  destruct (CheckPattern_preserves detected w Hwf Hinv)
    as (r' & w1' & Hrun' & Hinv1 & _).
  rewrite Hrun in Hrun'. injection Hrun' as <- <-.
  split; [exact Hinv1 | ].
  destruct Hinv as [Hi Hf]. unfold PATTERN_LENGTH in *.
  destruct (CheckPattern_cases detected w Hwf (conj Hi Hf))
    as (target & _ & [(_ & H) | [(_ & _ & Hl & H) | [(_ & _ & Hl & H)
        | [(_ & _ & _ & H) | (_ & _ & _ & H)]]]]);
    rewrite H in Hrun; injection Hrun as <- <-;
    unfold Ignore, HardFail, StepCorrect, SequenceComplete;
    cbn [index set_index set_failCount]; case_decide;
    try discriminate; unfold PATTERN_LENGTH in *; lia.
Qed.

Lemma loop_samples (rand_values : nat -> Z) (samples : list (Z * Z * Z))
  (w : world) :
  (forall k : nat, 0 <= rand_values k) ->
  Forall is_sample samples ->
  wf_world w -> matcher_inv w -> Forall target_color (pattern w) ->
  exists results w',
    loop rand_values samples w = Some (results, w') /\
    wf_world w' /\ matcher_inv w' /\ Forall target_color (pattern w') /\
    length results = length samples /\
    index w' + 4 * Z.of_nat (completions results)
      <= index w + Z.of_nat (length samples).
Proof.
  intros Hrand Hs. revert w.
  induction Hs as [ | [[R G] B] rest (HR & HG & HB) _ IH];
    intros w Hwf Hinv Hpat.
  { exists [], w. cbn. repeat split; try assumption; try apply Hinv. lia. }
  cbn [fst snd] in HR, HG, HB.
  destruct (loop_iteration_pass rand_values R G B w Hrand HR HG HB Hwf Hinv)
    as (r & w2 & w1 & Hcheck & Hrun & Hi & Hf & Hwf1 & Hkeep & Hnew & _).
  destruct (CheckPattern_progress _ _ _ _ Hwf Hinv Hcheck) as (Hinv2 & Hle).
  assert (Hinv1 : matcher_inv w1)
    by (unfold matcher_inv; rewrite Hi, Hf; exact Hinv2).
  assert (Hpat1 : Forall target_color (pattern w1)).
  { destruct (decide (r = SequenceComplete)) as [Hr | Hr].
    - apply (Hnew Hr).
    - destruct (Hkeep Hr) as (-> & _). exact Hpat. }
  destruct (IH w1 Hwf1 Hinv1 Hpat1)
    as (rs & w' & Hrest & Hwf' & Hinv' & Hpat' & Hlen & Hbound).
  exists (r :: rs), w'. cbn [loop].
  rewrite (bind_Some _ _ _ _ _ Hrun), (bind_Some _ _ _ _ _ Hrest).
  split; [reflexivity | ]. repeat (split; [assumption | ]).
  split; [cbn; congruence | ].
  rewrite completions_cons. cbn [length]. rewrite Hi in Hbound.
  case_decide; lia.
Qed.

(** X16.  [main], from the drawing of the first pattern on and for any
    number of unsigned 16-bit samples, returns one result per sample.
    After the last pass cursor and failure counter are within their
    bounds and [pattern] holds Green, Red and Yellow only, never Unknown;
    and SequenceComplete has been returned at most once per four
    samples. *)
Theorem main_rounds (rand_values : nat -> Z) (samples : list (Z * Z * Z)) :
  (forall k : nat, 0 <= rand_values k) ->
  Forall is_sample samples ->
  exists results w',
    main rand_values samples initial_world = Some (results, w') /\
    length results = length samples /\
    matcher_inv w' /\ wf_world w' /\
    Forall target_color (pattern w') /\
    (4 * completions results <= length samples)%nat.
Proof.
  intros Hrand Hs. unfold main.
  destruct (Generate_Random_Pattern_run rand_values Hrand initial_world
              eq_refl)
    as (c0 & c1 & c2 & c3 & _ & _ & _ & _ & Hall & Hgen).
  rewrite (bind_Some _ _ _ _ _ Hgen).
  match goal with
  | |- context [(Show_Pattern ≫= _) ?w1] =>
      rewrite (bind_Some _ _ _ _ _ (Show_Pattern_run w1 eq_refl))
  end.
  match goal with
  | |- context [loop _ _ ?w2] =>
      destruct (loop_samples rand_values samples w2 Hrand Hs eq_refl
                  matcher_inv_initial Hall)
        as (results & w' & Hrun & Hwf' & Hinv' & Hpat' & Hlen & Hbound)
  end.
  exists results, w'. repeat (split; [assumption | ]).
  cbn [index set_trace set_pattern set_rand_calls initial_world] in Hbound.
  destruct Hinv' as [Hi' _]. lia.
Qed.

Lemma main_rounds_witness :
  exists results w',
    main (fun k => 7 * Z.of_nat k + 5)
      [(0, 0, 0); (0, 60000, 0); (60000, 0, 0); (60000, 0, 0)]
      initial_world = Some (results, w') /\
    length results = 4%nat /\
    matcher_inv w' /\ wf_world w' /\
    Forall target_color (pattern w') /\
    (4 * completions results <= 4)%nat.
Proof.
  apply (main_rounds (fun k => 7 * Z.of_nat k + 5)
           [(0, 0, 0); (0, 60000, 0); (60000, 0, 0); (60000, 0, 0)]);
    [intros k; lia | ].
  repeat first [apply Forall_nil_2 | apply Forall_cons_2];
    unfold is_sample, is_uint16, UINT16_MAX; cbn; lia.
Defined.

Lemma loop_cons (rand_values : nat -> Z) (R G B : Z)
  (rest : list (Z * Z * Z)) (r : Z) (w w1 : world) :
  loop_iteration rand_values R G B w = Some (r, w1) ->
  loop rand_values ((R, G, B) :: rest) w =
    match loop rand_values rest w1 with
    | Some (rs, w') => Some (r :: rs, w')
    | None => None
    end.
Proof.
  intros H. cbn [loop]. rewrite (bind_Some _ _ _ _ _ H). reflexivity.
Qed.

(** A pass on a sample whose colour is the one at the cursor. *)
Lemma loop_iteration_correct (rand_values : nat -> Z) (R G B : Z)
  (w : world) :
  (forall k : nat, 0 <= rand_values k) ->
  is_sample (R, G, B) ->
  wf_world w -> matcher_inv w ->
  classify R G B <> COLOR_UNKNOWN ->
  pattern w !! Z.to_nat (index w) = Some (classify R G B) ->
  exists w',
    loop_iteration rand_values R G B w =
      Some (if decide (index w + 1 = PATTERN_LENGTH)
            then SequenceComplete else StepCorrect, w') /\
    wf_world w' /\ failCount w' = 0 /\
    (index w + 1 = PATTERN_LENGTH ->
       index w' = 0 /\ rand_calls w' = (4 + rand_calls w)%nat /\
       Forall target_color (pattern w')) /\
    (index w + 1 <> PATTERN_LENGTH ->
       index w' = index w + 1 /\ rand_calls w' = rand_calls w /\
       pattern w' = pattern w).
Proof.
  intros Hrand (HR & HG & HB) Hwf Hinv Hu Hp. cbn [fst snd] in HR, HG, HB.
  destruct (loop_iteration_pass rand_values R G B w Hrand HR HG HB Hwf Hinv)
    as (r & w2 & w' & Hcheck & Hrun & Hi & Hf & Hwf' & Hkeep & Hnew & _).
  rewrite (CheckPattern_correct _ w Hu (proj1 Hinv) Hp) in Hcheck.
  exists w'. case_decide as Hlast; injection Hcheck as <- <-;
    cbn [index failCount set_index set_failCount] in Hi, Hf;
    (split; [exact Hrun | ]); (split; [exact Hwf' | ]);
    (split; [exact Hf | ]); split; intros Hc; try contradiction.
  - destruct (Hnew eq_refl) as (Hall & Hn). repeat split; assumption.
  - destruct (Hkeep ltac:(discriminate)) as (Hpat & Hn).
    repeat split; assumption.
Qed.

(** X17.  Four samples in a row whose colours are the four cells of the
    pattern, shown to a fresh matcher, open the round: the four passes of
    the loop return StepCorrect, StepCorrect, StepCorrect,
    SequenceComplete; afterwards the matcher is fresh again and a new
    pattern of Green, Red and Yellow has been drawn with four calls of
    [rand()]. *)
Theorem loop_exact_target (rand_values : nat -> Z)
  (samples : list (Z * Z * Z)) (w : world) :
  (forall k : nat, 0 <= rand_values k) ->
  Forall is_sample samples ->
  index w = 0 -> failCount w = 0 ->
  length samples = 4%nat ->
  pattern w = map (fun s => classify (fst (fst s)) (snd (fst s)) (snd s))
                samples ->
  Forall target_color (pattern w) ->
  exists w',
    loop rand_values samples w =
      Some ([StepCorrect; StepCorrect; StepCorrect; SequenceComplete], w') /\
    index w' = 0 /\ failCount w' = 0 /\
    rand_calls w' = (4 + rand_calls w)%nat /\
    wf_world w' /\ Forall target_color (pattern w').
Proof.
  intros Hrand Hs Hi Hf Hlen Hp Hall.
  destruct samples as [ | [[R0 G0] B0] [ | [[R1 G1] B1] [ | [[R2 G2] B2]
    [ | [[R3 G3] B3] [ | s rest]]]]]; try discriminate Hlen.
  cbn [map fst snd] in Hp.
  apply Forall_cons in Hs as (Hs0 & Hs).
  apply Forall_cons in Hs as (Hs1 & Hs).
  apply Forall_cons in Hs as (Hs2 & Hs).
  apply Forall_cons in Hs as (Hs3 & _).
  rewrite Hp in Hall.
  apply Forall_cons in Hall as (Ht0 & Hall).
  apply Forall_cons in Hall as (Ht1 & Hall).
  apply Forall_cons in Hall as (Ht2 & Hall).
  apply Forall_cons in Hall as (Ht3 & _).
  apply target_color_cases in Ht0, Ht1, Ht2, Ht3.
  assert (Hwf : wf_world w) by (unfold wf_world; rewrite Hp; reflexivity).
  (* first pass *)
  destruct (loop_iteration_correct rand_values R0 G0 B0 w Hrand Hs0 Hwf)
    as (w1 & Hrun1 & Hwf1 & Hf1 & _ & Hnext1);
    [unfold matcher_inv, PATTERN_LENGTH; lia | exact Ht0
    | rewrite Hi, Hp; reflexivity | ].
  rewrite decide_False in Hrun1 by (unfold PATTERN_LENGTH; lia).
  destruct Hnext1 as (Hi1 & Hn1 & Hp1); [unfold PATTERN_LENGTH; lia | ].
  rewrite (loop_cons _ _ _ _ _ _ _ _ Hrun1).
  (* second pass *)
  destruct (loop_iteration_correct rand_values R1 G1 B1 w1 Hrand Hs1 Hwf1)
    as (w2 & Hrun2 & Hwf2 & Hf2 & _ & Hnext2);
    [unfold matcher_inv, PATTERN_LENGTH; lia | exact Ht1
    | rewrite Hi1, Hi, Hp1, Hp; reflexivity | ].
  rewrite decide_False in Hrun2 by (unfold PATTERN_LENGTH; lia).
  destruct Hnext2 as (Hi2 & Hn2 & Hp2); [unfold PATTERN_LENGTH; lia | ].
  rewrite (loop_cons _ _ _ _ _ _ _ _ Hrun2).
  (* third pass *)
  destruct (loop_iteration_correct rand_values R2 G2 B2 w2 Hrand Hs2 Hwf2)
    as (w3 & Hrun3 & Hwf3 & Hf3 & _ & Hnext3);
    [unfold matcher_inv, PATTERN_LENGTH; lia | exact Ht2
    | rewrite Hi2, Hi1, Hi, Hp2, Hp1, Hp; reflexivity | ].
  rewrite decide_False in Hrun3 by (unfold PATTERN_LENGTH; lia).
  destruct Hnext3 as (Hi3 & Hn3 & Hp3); [unfold PATTERN_LENGTH; lia | ].
  rewrite (loop_cons _ _ _ _ _ _ _ _ Hrun3).
  (* fourth pass *)
  destruct (loop_iteration_correct rand_values R3 G3 B3 w3 Hrand Hs3 Hwf3)
    as (w4 & Hrun4 & Hwf4 & Hf4 & Hlast4 & _);
    [unfold matcher_inv, PATTERN_LENGTH; lia | exact Ht3
    | rewrite Hi3, Hi2, Hi1, Hi, Hp3, Hp2, Hp1, Hp; reflexivity | ].
  rewrite decide_True in Hrun4 by (unfold PATTERN_LENGTH; lia).
  destruct Hlast4 as (Hi4 & Hn4 & Hall4); [unfold PATTERN_LENGTH; lia | ].
  rewrite (loop_cons _ _ _ _ _ _ _ _ Hrun4).
  exists w4. split; [reflexivity | ].
  repeat split; try assumption. congruence.
Qed.

Lemma loop_exact_target_witness :
  let w := mkWorld [COLOR_GREEN; COLOR_RED; COLOR_YELLOW; COLOR_GREEN]
             0 0 4%nat [] in
  exists w',
    loop (fun k => 7 * Z.of_nat k + 5)
      [(0, 60000, 0); (60000, 0, 0); (20000, 20000, 0); (0, 60000, 0)] w =
      Some ([StepCorrect; StepCorrect; StepCorrect; SequenceComplete], w') /\
    index w' = 0 /\ failCount w' = 0 /\
    rand_calls w' = (4 + rand_calls w)%nat /\
    wf_world w' /\ Forall target_color (pattern w').
Proof.
  apply (loop_exact_target (fun k => 7 * Z.of_nat k + 5)
           [(0, 60000, 0); (60000, 0, 0); (20000, 20000, 0); (0, 60000, 0)]
           (mkWorld [COLOR_GREEN; COLOR_RED; COLOR_YELLOW; COLOR_GREEN]
              0 0 4%nat []));
    [intros k; lia | | reflexivity | reflexivity | reflexivity
    | reflexivity | ].
  - repeat first [apply Forall_nil_2 | apply Forall_cons_2];
      unfold is_sample, is_uint16, UINT16_MAX; cbn; lia.
  - cbn [pattern].
    repeat first [apply Forall_nil_2 | apply Forall_cons_2];
      unfold target_color; auto.
Defined.
